(** * Momentum injectors of WarpX (Source/Initialization/InjectorMomentum.H)

    A shallow embedding of the momentum samplers and of the selector that
    dispatches between them, followed by the properties established about
    them.

    - [amrex::Real] is kept abstract: the samplers are written once over an
      interface [AmrexReal] that lists the arithmetic, the comparisons and
      the [<cmath>] functions the header calls.  Two instances follow: the
      real numbers ([R_real], the ideal arithmetic) and IEEE binary64
      ([binary64_real], Rocq's primitive floats).
    - [amrex::RandomEngine] is threaded explicitly: every draw takes an
      engine state and returns the advanced one.
    - [amrex::Abort] is a fatal report; the statements that follow the call
      are kept as the behaviour of an execution context that cannot unwind.
    - The [while] loops are unbounded in the source and are given a fuel
      argument here. *)

From Stdlib Require Import Floats.PrimFloat Floats.FloatOps Floats.FloatAxioms.
From Stdlib Require Import Floats.SpecFloat.
From Stdlib Require Import Reals Lra ZArith Lia String List Bool.
Import ListNotations.

Set Implicit Arguments.

(* ------------------------------------------------------------------ *)
(** * [amrex::Real] *)

(** The operations of [amrex::Real] used by the header.  The literal
    fields are the literals that occur in the source ([0._rt], [1._rt],
    [2._rt], [0.6], [0.1_rt], [0.5], [MathConst::pi]); [rlt], [rle] and
    [req] are the C++ operators [<], [<=] and [==] ([a > b] is [b < a]). *)
Class AmrexReal (T : Type) : Type := {
  r0 : T;
  r1 : T;
  r2 : T;
  r0_6 : T;
  r0_1 : T;
  r0_5 : T;
  rpi : T;
  radd : T -> T -> T;
  rsub : T -> T -> T;
  rmul : T -> T -> T;
  rdiv : T -> T -> T;
  rneg : T -> T;
  rsqrt : T -> T;
  rlog : T -> T;
  rexp : T -> T;
  rsin : T -> T;
  rcos : T -> T;
  rlt : T -> T -> bool;
  rle : T -> T -> bool;
  req : T -> T -> bool
}.

Declare Scope rt_scope.
Delimit Scope rt_scope with rt.
Notation "a + b" := (radd a b) : rt_scope.
Notation "a - b" := (rsub a b) : rt_scope.
Notation "a * b" := (rmul a b) : rt_scope.
Notation "a / b" := (rdiv a b) : rt_scope.
Notation "- a" := (rneg a) : rt_scope.
Notation "a <? b" := (rlt a b) : rt_scope.
Notation "a <=? b" := (rle a b) : rt_scope.
Notation "a >? b" := (rlt b a) : rt_scope.
Notation "a >=? b" := (rle b a) : rt_scope.
Notation "a =? b" := (req a b) : rt_scope.

(** [amrex::XDim3]. *)
Record XDim3 (T : Type) : Type := mkXDim3 { x : T; y : T; z : T }.

(** A local [amrex::Real u[3]], read and written through an [int] index.
    An index outside 0..2 is undefined behaviour in the source; here such
    a write leaves the array as it is and such a read gives the cell 2. *)
Definition arr3 (T : Type) : Type := (T * T * T)%type.

Definition get3 {T} (u : arr3 T) (i : Z) : T :=
  let '(a, b, c) := u in
  if (i =? 0)%Z then a else if (i =? 1)%Z then b else c.

Definition set3 {T} (u : arr3 T) (i : Z) (v : T) : arr3 T :=
  let '(a, b, c) := u in
  if (i =? 0)%Z then (v, b, c)
  else if (i =? 1)%Z then (a, v, c)
  else if (i =? 2)%Z then (a, b, v)
  else u.

(** [amrex::XDim3 {u[0],u[1],u[2]}]. *)
Definition XDim3_of_arr3 {T} (u : arr3 T) : XDim3 T :=
  mkXDim3 (get3 u 0) (get3 u 1) (get3 u 2).

(* ------------------------------------------------------------------ *)
(** * Outcomes, the random engine and the sampling monad *)

(** What a call produces.  [Aborted msg k]: [amrex::Abort(msg)] was
    called; [k] is what the statements after the call produce in an
    execution context that cannot unwind, where the call returns, and is
    never reached where the call terminates the run.  [OutOfFuel]: a loop
    was cut short by the fuel.  [Undefined]: the source reads a member of
    the union that is not the one stored. *)
Inductive outcome (A : Type) : Type :=
| Done (a : A)
| Aborted (msg : string) (resumed : outcome A)
| OutOfFuel
| Undefined.

Arguments Done {A} a.
Arguments Aborted {A} msg resumed.
Arguments OutOfFuel {A}.
Arguments Undefined {A}.

(** Was a fatal error reported? *)
Definition aborts {A} (o : outcome A) : bool :=
  match o with
  | Aborted _ _ => true
  | _ => false
  end.

(** The value handed back to the caller: none once [amrex::Abort] has been
    called. *)
Definition returned {A} (o : outcome A) : option A :=
  match o with
  | Done a => Some a
  | _ => None
  end.

(** The value that comes out where [amrex::Abort] returns to its caller. *)
Fixpoint emitted {A} (o : outcome A) : option A :=
  match o with
  | Done a => Some a
  | Aborted _ k => emitted k
  | _ => None
  end.

(** The messages passed to [amrex::Abort], in order. *)
Fixpoint reports {A} (o : outcome A) : list string :=
  match o with
  | Aborted msg k => msg :: reports k
  | _ => []
  end.

Fixpoint obind {A B} (o : outcome A) (k : A -> outcome B) : outcome B :=
  match o with
  | Done a => k a
  | Aborted msg r => Aborted msg (obind r k)
  | OutOfFuel => OutOfFuel
  | Undefined => Undefined
  end.

(** Modelled from the spec: AMReX_Random.H is not among the sources at
    hand.  [amrex::Random(engine)] gives a uniform variate and
    [amrex::RandomNormal(mean, stddev, engine)] a normal one; both advance
    the engine, whose state has type [E]. *)
Class RandomEngine (T E : Type) : Type := {
  Random : E -> T * E;
  RandomNormal : T -> T -> E -> T * E
}.

(** A computation that draws from the engine. *)
Definition M (E A : Type) : Type := E -> outcome (A * E).

Definition ret {E A} (a : A) : M E A := fun e => Done (a, e).

Definition bind {E A B} (m : M E A) (k : A -> M E B) : M E B :=
  fun e => obind (m e) (fun r => k (fst r) (snd r)).

Definition lift {E A} (f : E -> A * E) : M E A := fun e => Done (f e).

(** Modelled from the spec: [amrex::Abort] comes from AMReX.H, which is not
    among the sources at hand; it is the fatal, non-recoverable report of
    the specification. *)
Definition Abort {E} (msg : string) : M E unit :=
  fun e => Aborted msg (Done (tt, e)).

(** Modelled from the spec: [WARPX_ALWAYS_ASSERT_WITH_MESSAGE] comes from
    Utils/TextMsg.H, which is not among the sources at hand; a failed
    assertion is a fatal configuration error reported with the message. *)
Definition WARPX_ALWAYS_ASSERT_WITH_MESSAGE (ex : bool) (msg : string)
  : outcome unit :=
  if ex then Done tt else Aborted msg (Done tt).

Definition out_of_fuel {E A} : M E A := fun _ => OutOfFuel.

Definition when {E} (b : bool) (m : M E unit) : M E unit :=
  if b then m else ret tt.

Declare Scope sampling_scope.
Delimit Scope sampling_scope with sampling.
Notation "v <- m ;; k" := (bind m (fun v => k))
  (at level 61, m at next level, right associativity) : sampling_scope.
Notation "m ;; k" := (bind m (fun _ => k))
  (at level 61, right associativity) : sampling_scope.

Local Open Scope sampling_scope.
Local Open Scope string_scope.

(* ------------------------------------------------------------------ *)
(** * InjectorMomentumConstant *)

Module InjectorMomentumConstant.
Section Defs.
Context {T E : Type} {A : AmrexReal T} {G : RandomEngine T E}.

Record t : Type := make { m_ux : T; m_uy : T; m_uz : T }.

Definition getMomentum (s : t) (_ _ _ : T) : M E (XDim3 T) :=
  ret (mkXDim3 (m_ux s) (m_uy s) (m_uz s)).

Definition getBulkMomentum (s : t) (_ _ _ : T) : XDim3 T :=
  mkXDim3 (m_ux s) (m_uy s) (m_uz s).
End Defs.
Arguments t : clear implicits.
End InjectorMomentumConstant.

(* ------------------------------------------------------------------ *)
(** * InjectorMomentumGaussian *)

Module InjectorMomentumGaussian.
Section Defs.
Context {T E : Type} {A : AmrexReal T} {G : RandomEngine T E}.

Record t : Type := make {
  m_ux_m : T; m_uy_m : T; m_uz_m : T;
  m_ux_th : T; m_uy_th : T; m_uz_th : T
}.

Definition getMomentum (s : t) (_ _ _ : T) : M E (XDim3 T) :=
  ux <- lift (RandomNormal (m_ux_m s) (m_ux_th s)) ;;
  uy <- lift (RandomNormal (m_uy_m s) (m_uy_th s)) ;;
  uz <- lift (RandomNormal (m_uz_m s) (m_uz_th s)) ;;
  ret (mkXDim3 ux uy uz).

Definition getBulkMomentum (s : t) (_ _ _ : T) : XDim3 T :=
  mkXDim3 (m_ux_m s) (m_uy_m s) (m_uz_m s).
End Defs.
Arguments t : clear implicits.
End InjectorMomentumGaussian.

(* ------------------------------------------------------------------ *)
(** * generateGaussianFluxDist *)

Section GaussianFluxDist.
Context {T E : Type} {A : AmrexReal T} {G : RandomEngine T E}.
Local Open Scope rt_scope.

(** One pass through the body of the first [while (reject)] loop: the
    proposal [u] and whether it is accepted. *)
Definition low_drift_body (approx_u_th reject_prefactor u_th : T)
  : M E (T * bool) :=
  r <- lift Random ;;
  let xrand := r1 - r in
  let u := approx_u_th * rsqrt (r2 * rlog (r1 / xrand)) in
  xrand <- lift Random ;;
  ret (u, xrand <? rexp (- reject_prefactor * (u - u_th) * (u - u_th))).

Fixpoint low_drift_loop (fuel : nat) (approx_u_th reject_prefactor u_th : T)
  : M E T :=
  match fuel with
  | O => out_of_fuel
  | S fuel' =>
      p <- low_drift_body approx_u_th reject_prefactor u_th ;;
      if snd p then ret (fst p)
      else low_drift_loop fuel' approx_u_th reject_prefactor u_th
  end.

(** [while (u < 0) { u = amrex::RandomNormal(approx_u_m, u_th, engine); }] *)
Fixpoint positive_normal_loop (fuel : nat) (approx_u_m u_th u : T) : M E T :=
  if u <? r0 then
    match fuel with
    | O => out_of_fuel
    | S fuel' =>
        u' <- lift (RandomNormal approx_u_m u_th) ;;
        positive_normal_loop fuel' approx_u_m u_th u'
    end
  else ret u.

(** One pass through the body of the second [while (reject)] loop. *)
Definition high_drift_body (fuel : nat) (approx_u_m u_th inv_um : T)
  : M E (T * bool) :=
  u <- positive_normal_loop fuel approx_u_m u_th (- r1) ;;
  xrand <- lift Random ;;
  ret (u, xrand <? u * inv_um * rexp (r1 - u * inv_um)).

Fixpoint high_drift_loop (fuel inner : nat) (approx_u_m u_th inv_um : T)
  : M E T :=
  match fuel with
  | O => out_of_fuel
  | S fuel' =>
      p <- high_drift_body inner approx_u_m u_th inv_um ;;
      if snd p then ret (fst p)
      else high_drift_loop fuel' inner approx_u_m u_th inv_um
  end.

Definition generateGaussianFluxDist (fuel : nat) (u_m u_th : T) : M E T :=
  if u_th =? r0 then
    ret u_m
  else if u_m <? r0_6 * u_th then
    let approx_u_th := u_th / rsqrt (r1 - u_m / u_th) in
    let reject_prefactor := (u_m / u_th) / (r2 * u_th * u_th) in
    low_drift_loop fuel approx_u_th reject_prefactor u_th
  else
    let approx_u_m := u_m + u_th * u_th / u_m in
    let inv_um := r1 / u_m in
    high_drift_loop fuel fuel approx_u_m u_th inv_um.
End GaussianFluxDist.

(* ------------------------------------------------------------------ *)
(** * InjectorMomentumGaussianFlux *)

Module InjectorMomentumGaussianFlux.
Section Defs.
Context {T E : Type} {A : AmrexReal T} {G : RandomEngine T E}.
Local Open Scope rt_scope.

Record t : Type := Build {
  m_ux_m : T; m_uy_m : T; m_uz_m : T;
  m_ux_th : T; m_uy_th : T; m_uz_th : T;
  m_flux_normal_axis : Z;
  m_flux_direction : Z
}.

Definition assert_message : string :=
  "When using the `gaussianflux` distribution, the central momentum along the flux axis must be positive or zero.".

(** The value of [raise_error] when the constructor reaches its assertion. *)
Definition raise_error (s : t) : bool :=
  let raise_error := false in
  let raise_error :=
    if (m_flux_normal_axis s =? 0)%Z && (m_ux_m s <? r0) then true
    else raise_error in
  let raise_error :=
    if (m_flux_normal_axis s =? 1)%Z && (m_uy_m s <? r0) then true
    else raise_error in
  let raise_error :=
    if (m_flux_normal_axis s =? 2)%Z && (m_uz_m s <? r0) then true
    else raise_error in
  raise_error.

(** The constructor. *)
Definition make (a_ux_m a_uy_m a_uz_m a_ux_th a_uy_th a_uz_th : T)
  (a_flux_normal_axis a_flux_direction : Z) : outcome t :=
  let s := Build a_ux_m a_uy_m a_uz_m a_ux_th a_uy_th a_uz_th
                 a_flux_normal_axis a_flux_direction in
  obind (WARPX_ALWAYS_ASSERT_WITH_MESSAGE
           (Bool.eqb (raise_error s) false) assert_message)
        (fun _ => Done s).

(** [u_m] and [u_th] along the flux axis, as [getMomentum] selects them. *)
Definition flux_axis_parameters (s : t) : T * T :=
  if (m_flux_normal_axis s =? 0)%Z then (m_ux_m s, m_ux_th s)
  else if (m_flux_normal_axis s =? 1)%Z then (m_uy_m s, m_uy_th s)
  else if (m_flux_normal_axis s =? 2)%Z then (m_uz_m s, m_uz_th s)
  else (r0, r0).

Definition getMomentum (fuel : nat) (s : t) (_ _ _ : T) : M E (XDim3 T) :=
  let '(u_m, u_th) := flux_axis_parameters s in
  u <- generateGaussianFluxDist fuel u_m u_th ;;
  let u := if (m_flux_direction s <? 0)%Z then - u else u in
  ux <- (if (m_flux_normal_axis s =? 0)%Z then ret u
         else lift (RandomNormal (m_ux_m s) (m_ux_th s))) ;;
  uy <- (if (m_flux_normal_axis s =? 1)%Z then ret u
         else lift (RandomNormal (m_uy_m s) (m_uy_th s))) ;;
  uz <- (if (m_flux_normal_axis s =? 2)%Z then ret u
         else lift (RandomNormal (m_uz_m s) (m_uz_th s))) ;;
  ret (mkXDim3 ux uy uz).

Definition getBulkMomentum (s : t) (_ _ _ : T) : XDim3 T :=
  mkXDim3 (m_ux_m s) (m_uy_m s) (m_uz_m s).
End Defs.
Arguments t : clear implicits.
End InjectorMomentumGaussianFlux.

(* ------------------------------------------------------------------ *)
(** * InjectorMomentumUniform *)

Module InjectorMomentumUniform.
Section Defs.
Context {T E : Type} {A : AmrexReal T} {G : RandomEngine T E}.
Local Open Scope rt_scope.

Record t : Type := Build {
  m_ux_min : T; m_uy_min : T; m_uz_min : T;
  m_ux_max : T; m_uy_max : T; m_uz_max : T;
  m_ux_h : T; m_uy_h : T; m_uz_h : T;
  m_Dux : T; m_Duy : T; m_Duz : T
}.

Definition make (a_ux_min a_uy_min a_uz_min a_ux_max a_uy_max a_uz_max : T)
  : t :=
  Build a_ux_min a_uy_min a_uz_min a_ux_max a_uy_max a_uz_max
        (r0_5 * (a_ux_max + a_ux_min))
        (r0_5 * (a_uy_max + a_uy_min))
        (r0_5 * (a_uz_max + a_uz_min))
        (a_ux_max - a_ux_min)
        (a_uy_max - a_uy_min)
        (a_uz_max - a_uz_min).

Definition getMomentum (s : t) (_ _ _ : T) : M E (XDim3 T) :=
  rx <- lift Random ;;
  ry <- lift Random ;;
  rz <- lift Random ;;
  ret (mkXDim3 (m_ux_min s + rx * m_Dux s)
               (m_uy_min s + ry * m_Duy s)
               (m_uz_min s + rz * m_Duz s)).

Definition getBulkMomentum (s : t) (_ _ _ : T) : XDim3 T :=
  mkXDim3 (m_ux_h s) (m_uy_h s) (m_uz_h s).
End Defs.
Arguments t : clear implicits.
End InjectorMomentumUniform.

(* ------------------------------------------------------------------ *)
(** * The field evaluators *)

(** Modelled from the spec: GetTemperature.H and GetVelocity.H are not
    among the sources at hand.  The temperature evaluator is a callable
    [Temperature(x,y,z) -> real]; the velocity evaluator is a callable
    [Velocity(x,y,z) -> real] together with a fixed [direction()], the
    index of the boost axis. *)
Definition GetTemperature (T : Type) : Type := T -> T -> T -> T.

Record GetVelocity (T : Type) : Type := mkGetVelocity {
  velocity_at : T -> T -> T -> T;
  direction : Z
}.

(* ------------------------------------------------------------------ *)
(** * The transform to the simulation frame

    The last two steps of [getMomentum] are written out twice in the
    header, once for each relativistic sampler, in the same words. *)

Section FrameTransform.
Context {T : Type} {A : AmrexReal T}.
Local Open Scope rt_scope.

(** [if (-beta*u[dir]/gamma > xrand) { u[dir] = -u[dir]; }] *)
Definition flip (beta gamma xrand : T) (dir : Z) (u : arr3 T) : arr3 T :=
  if - beta * get3 u dir / gamma >? xrand then set3 u dir (- get3 u dir)
  else u.

(** [u[dir] = 1._rt/std::sqrt(1._rt-beta*beta)*(u[dir]+gamma*beta);] *)
Definition lorentz_boost (beta gamma : T) (dir : Z) (u : arr3 T) : arr3 T :=
  set3 u dir (r1 / rsqrt (r1 - beta * beta) * (get3 u dir + gamma * beta)).

(** The body shared by the two [getBulkMomentum]. *)
Definition bulk_momentum (velocity : GetVelocity T) (x y z : T) : XDim3 T :=
  let u := (r0, r0, r0) in
  let beta := velocity_at velocity x y z in
  let dir := direction velocity in
  let gamma := r1 / rsqrt (r1 - beta * beta) in
  let u := set3 u dir (gamma * beta) in
  XDim3_of_arr3 u.
End FrameTransform.

(* ------------------------------------------------------------------ *)
(** * InjectorMomentumBoltzmann *)

Module InjectorMomentumBoltzmann.
Section Defs.
Context {T E : Type} {A : AmrexReal T} {G : RandomEngine T E}.
Local Open Scope rt_scope.

Record t : Type := make {
  temperature : GetTemperature T;
  velocity : GetVelocity T
}.

(** The three normal draws, stored at [dir], [(dir+1)%3] and [(dir+2)%3];
    the array is not initialised in the source and every cell is written
    before it is read when [dir] is 0, 1 or 2. *)
Definition local_sample (vave : T) (dir : Z) : M E (arr3 T) :=
  let u := (r0, r0, r0) in
  n <- lift (RandomNormal r0 vave) ;;
  let u := set3 u dir n in
  n <- lift (RandomNormal r0 vave) ;;
  let u := set3 u (Z.rem (dir + 1) 3) n in
  n <- lift (RandomNormal r0 vave) ;;
  let u := set3 u (Z.rem (dir + 2) 3) n in
  ret u.

Definition gamma_of (u : arr3 T) : T :=
  rsqrt (r1 + get3 u 0 * get3 u 0 + get3 u 1 * get3 u 1
            + get3 u 2 * get3 u 2).

Definition getMomentum (s : t) (x y z : T) : M E (XDim3 T) :=
  let theta := temperature s x y z in
  when (theta <? r0)
    (Abort "Negative temperature parameter theta encountered, which is not allowed") ;;
  let beta := velocity_at (velocity s) x y z in
  when ((beta <=? - r1) || (beta >=? r1))
    (Abort "beta = v/c magnitude greater than or equal to 1") ;;
  let vave := rsqrt theta in
  let dir := direction (velocity s) in
  u <- local_sample vave dir ;;
  let gamma := gamma_of u in
  xrand <- lift Random ;;
  let u := flip beta gamma xrand dir u in
  let u := lorentz_boost beta gamma dir u in
  ret (XDim3_of_arr3 u).

Definition getBulkMomentum (s : t) (x y z : T) : XDim3 T :=
  bulk_momentum (velocity s) x y z.
End Defs.
Arguments t : clear implicits.
End InjectorMomentumBoltzmann.

(* ------------------------------------------------------------------ *)
(** * InjectorMomentumJuttner *)

Module InjectorMomentumJuttner.
Section Defs.
Context {T E : Type} {A : AmrexReal T} {G : RandomEngine T E}.
Local Open Scope rt_scope.

Record t : Type := make {
  temperature : GetTemperature T;
  velocity : GetVelocity T
}.

(** The variables the Sobol loop reads and writes. *)
Record locals : Type := mkLocals { u : arr3 T; gamma : T; x1 : T }.

(** The body of [while (u[dir]-gamma <= x1)].  The three draws of the
    product are taken from left to right; C++ leaves their order open. *)
Definition sobol_body (theta : T) (dir : Z) (l : locals) : M E locals :=
  xi1 <- lift Random ;;
  xi2 <- lift Random ;;
  xi3 <- lift Random ;;
  let u := set3 (u l) dir (- theta * rlog (xi1 * xi2 * xi3)) in
  let gamma := rsqrt (r1 + get3 u dir * get3 u dir) in
  xi4 <- lift Random ;;
  let x1 := theta * rlog xi4 in
  ret (mkLocals u gamma x1).

Fixpoint sobol_loop (fuel : nat) (theta : T) (dir : Z) (l : locals)
  : M E locals :=
  if get3 (u l) dir - gamma l <=? x1 l then
    match fuel with
    | O => out_of_fuel
    | S fuel' =>
        l' <- sobol_body theta dir l ;;
        sobol_loop fuel' theta dir l'
    end
  else ret l.

(** The speed [u[dir]] spread over a random direction. *)
Definition spread (dir : Z) (u : arr3 T) (x1 x2 : T) : arr3 T :=
  let u := set3 u (Z.rem (dir + 1) 3)
             (r2 * get3 u dir * rsqrt (x1 * (r1 - x1)) * rsin (r2 * rpi * x2)) in
  let u := set3 u (Z.rem (dir + 2) 3)
             (r2 * get3 u dir * rsqrt (x1 * (r1 - x1)) * rcos (r2 * rpi * x2)) in
  let u := set3 u dir (get3 u dir * (r2 * x1 - r1)) in
  u.

(** The sample in the local frame: the Sobol loop, then the direction. *)
Definition local_sample (fuel : nat) (theta : T) (dir : Z) : M E locals :=
  let l := mkLocals (set3 (r0, r0, r0) dir r0) r0 r0 in
  l <- sobol_loop fuel theta dir l ;;
  x1 <- lift Random ;;
  x2 <- lift Random ;;
  ret (mkLocals (spread dir (u l) x1 x2) (gamma l) x1).

Definition getMomentum (fuel : nat) (s : t) (x y z : T) : M E (XDim3 T) :=
  let theta := temperature s x y z in
  when (theta <? r0_1)
    (Abort "Temeprature parameter theta is less than minimum 0.1 allowed for Maxwell-Juttner") ;;
  let beta := velocity_at (velocity s) x y z in
  when ((beta <=? - r1) || (beta >=? r1))
    (Abort "beta = v/c magnitude greater than or equal to 1") ;;
  let dir := direction (velocity s) in
  l <- local_sample fuel theta dir ;;
  x1 <- lift Random ;;
  let u := flip beta (gamma l) x1 dir (u l) in
  let u := lorentz_boost beta (gamma l) dir u in
  ret (XDim3_of_arr3 u).

Definition getBulkMomentum (s : t) (x y z : T) : XDim3 T :=
  bulk_momentum (velocity s) x y z.
End Defs.
Arguments t : clear implicits.
Arguments locals : clear implicits.
End InjectorMomentumJuttner.

(* ------------------------------------------------------------------ *)
(** * InjectorMomentumRadialExpansion *)

Module InjectorMomentumRadialExpansion.
Section Defs.
Context {T E : Type} {A : AmrexReal T} {G : RandomEngine T E}.
Local Open Scope rt_scope.

Record t : Type := make { u_over_r : T }.

Definition getMomentum (s : t) (x y z : T) : M E (XDim3 T) :=
  ret (mkXDim3 (x * u_over_r s) (y * u_over_r s) (z * u_over_r s)).

Definition getBulkMomentum (s : t) (x y z : T) : XDim3 T :=
  mkXDim3 (x * u_over_r s) (y * u_over_r s) (z * u_over_r s).
End Defs.
Arguments t : clear implicits.
End InjectorMomentumRadialExpansion.

(* ------------------------------------------------------------------ *)
(** * InjectorMomentumParser *)

Module InjectorMomentumParser.
Section Defs.
Context {T E : Type} {A : AmrexReal T} {G : RandomEngine T E}.

(** [amrex::ParserExecutor<3>]: an opaque callable of three reals. *)
Record t : Type := make {
  m_ux_parser : T -> T -> T -> T;
  m_uy_parser : T -> T -> T -> T;
  m_uz_parser : T -> T -> T -> T
}.

Definition getMomentum (s : t) (x y z : T) : M E (XDim3 T) :=
  ret (mkXDim3 (m_ux_parser s x y z) (m_uy_parser s x y z)
               (m_uz_parser s x y z)).

Definition getBulkMomentum (s : t) (x y z : T) : XDim3 T :=
  mkXDim3 (m_ux_parser s x y z) (m_uy_parser s x y z) (m_uz_parser s x y z).
End Defs.
Arguments t : clear implicits.
End InjectorMomentumParser.

(* ------------------------------------------------------------------ *)
(** * InjectorMomentum: the selector *)

Module InjectorMomentum.

(** [enum struct Type], by the value of each enumerator.  The stored tag is
    an [int]-sized field, so that values outside the enumeration can be
    told apart from the eight kinds. *)
Module Type_.
Definition constant : Z := 0.
Definition gaussian : Z := 1.
Definition gaussianflux : Z := 2.
Definition uniform : Z := 3.
Definition boltzmann : Z := 4.
Definition juttner : Z := 5.
Definition radial_expansion : Z := 6.
Definition parser : Z := 7.
End Type_.

(** The tag is one of the eight enumerators. *)
Definition recognized (type : Z) : bool :=
  ((0 <=? type) && (type <=? 7))%Z.

Section Defs.
Context {T E : Type} {A : AmrexReal T} {G : RandomEngine T E}.

(** [union Object]: exactly one member is stored. *)
Inductive Object : Type :=
| constant (o : InjectorMomentumConstant.t T)
| gaussian (o : InjectorMomentumGaussian.t T)
| gaussianflux (o : InjectorMomentumGaussianFlux.t T)
| uniform (o : InjectorMomentumUniform.t T)
| boltzmann (o : InjectorMomentumBoltzmann.t T)
| juttner (o : InjectorMomentumJuttner.t T)
| radial_expansion (o : InjectorMomentumRadialExpansion.t T)
| parser (o : InjectorMomentumParser.t T).

Record t : Type := Build { type : Z; object : Object }.

(** The constructors: each stores one member and the matching tag.  The
    one for [gaussianflux] runs the member's constructor, which may
    abort. *)
Definition make_constant (a_ux a_uy a_uz : T) : t :=
  Build Type_.constant
        (constant (InjectorMomentumConstant.make a_ux a_uy a_uz)).

Definition make_parser (a_ux_parser a_uy_parser a_uz_parser : T -> T -> T -> T)
  : t :=
  Build Type_.parser
        (parser (InjectorMomentumParser.make a_ux_parser a_uy_parser
                                             a_uz_parser)).

Definition make_gaussian (a_ux_m a_uy_m a_uz_m a_ux_th a_uy_th a_uz_th : T)
  : t :=
  Build Type_.gaussian
        (gaussian (InjectorMomentumGaussian.make a_ux_m a_uy_m a_uz_m
                                                 a_ux_th a_uy_th a_uz_th)).

Definition make_gaussianflux
  (a_ux_m a_uy_m a_uz_m a_ux_th a_uy_th a_uz_th : T)
  (a_flux_normal_axis a_flux_direction : Z) : outcome t :=
  obind (InjectorMomentumGaussianFlux.make a_ux_m a_uy_m a_uz_m
           a_ux_th a_uy_th a_uz_th a_flux_normal_axis a_flux_direction)
        (fun o => Done (Build Type_.gaussianflux (gaussianflux o))).

Definition make_uniform
  (a_ux_min a_uy_min a_uz_min a_ux_max a_uy_max a_uz_max : T) : t :=
  Build Type_.uniform
        (uniform (InjectorMomentumUniform.make a_ux_min a_uy_min a_uz_min
                                               a_ux_max a_uy_max a_uz_max)).

Definition make_boltzmann (temperature : GetTemperature T)
  (velocity : GetVelocity T) : t :=
  Build Type_.boltzmann
        (boltzmann (InjectorMomentumBoltzmann.make temperature velocity)).

Definition make_juttner (temperature : GetTemperature T)
  (velocity : GetVelocity T) : t :=
  Build Type_.juttner
        (juttner (InjectorMomentumJuttner.make temperature velocity)).

Definition make_radial_expansion (u_over_r : T) : t :=
  Build Type_.radial_expansion
        (radial_expansion (InjectorMomentumRadialExpansion.make u_over_r)).

(** The tag that goes with the stored member. *)
Definition stored_kind (o : Object) : Z :=
  match o with
  | constant _ => Type_.constant
  | gaussian _ => Type_.gaussian
  | gaussianflux _ => Type_.gaussianflux
  | uniform _ => Type_.uniform
  | boltzmann _ => Type_.boltzmann
  | juttner _ => Type_.juttner
  | radial_expansion _ => Type_.radial_expansion
  | parser _ => Type_.parser
  end.

Definition getMomentum (fuel : nat) (s : t) (x y z : T) : M E (XDim3 T) :=
  let type := type s in
  if (type =? Type_.parser)%Z then
    match object s with
    | parser o => InjectorMomentumParser.getMomentum o x y z
    | _ => fun _ => Undefined
    end
  else if (type =? Type_.gaussian)%Z then
    match object s with
    | gaussian o => InjectorMomentumGaussian.getMomentum o x y z
    | _ => fun _ => Undefined
    end
  else if (type =? Type_.gaussianflux)%Z then
    match object s with
    | gaussianflux o => InjectorMomentumGaussianFlux.getMomentum fuel o x y z
    | _ => fun _ => Undefined
    end
  else if (type =? Type_.uniform)%Z then
    match object s with
    | uniform o => InjectorMomentumUniform.getMomentum o x y z
    | _ => fun _ => Undefined
    end
  else if (type =? Type_.boltzmann)%Z then
    match object s with
    | boltzmann o => InjectorMomentumBoltzmann.getMomentum o x y z
    | _ => fun _ => Undefined
    end
  else if (type =? Type_.juttner)%Z then
    match object s with
    | juttner o => InjectorMomentumJuttner.getMomentum fuel o x y z
    | _ => fun _ => Undefined
    end
  else if (type =? Type_.constant)%Z then
    match object s with
    | constant o => InjectorMomentumConstant.getMomentum o x y z
    | _ => fun _ => Undefined
    end
  else if (type =? Type_.radial_expansion)%Z then
    match object s with
    | radial_expansion o => InjectorMomentumRadialExpansion.getMomentum o x y z
    | _ => fun _ => Undefined
    end
  else
    Abort "InjectorMomentum: unknown type" ;;
    ret (mkXDim3 r0 r0 r0).

Definition getBulkMomentum (s : t) (x y z : T) : outcome (XDim3 T) :=
  let type := type s in
  if (type =? Type_.parser)%Z then
    match object s with
    | parser o => Done (InjectorMomentumParser.getBulkMomentum o x y z)
    | _ => Undefined
    end
  else if (type =? Type_.gaussian)%Z then
    match object s with
    | gaussian o => Done (InjectorMomentumGaussian.getBulkMomentum o x y z)
    | _ => Undefined
    end
  else if (type =? Type_.gaussianflux)%Z then
    match object s with
    | gaussianflux o =>
        Done (InjectorMomentumGaussianFlux.getBulkMomentum o x y z)
    | _ => Undefined
    end
  else if (type =? Type_.uniform)%Z then
    match object s with
    | uniform o => Done (InjectorMomentumUniform.getBulkMomentum o x y z)
    | _ => Undefined
    end
  else if (type =? Type_.boltzmann)%Z then
    match object s with
    | boltzmann o => Done (InjectorMomentumBoltzmann.getBulkMomentum o x y z)
    | _ => Undefined
    end
  else if (type =? Type_.juttner)%Z then
    match object s with
    | juttner o => Done (InjectorMomentumJuttner.getBulkMomentum o x y z)
    | _ => Undefined
    end
  else if (type =? Type_.constant)%Z then
    match object s with
    | constant o => Done (InjectorMomentumConstant.getBulkMomentum o x y z)
    | _ => Undefined
    end
  else if (type =? Type_.radial_expansion)%Z then
    match object s with
    | radial_expansion o =>
        Done (InjectorMomentumRadialExpansion.getBulkMomentum o x y z)
    | _ => Undefined
    end
  else
    obind (Aborted "InjectorMomentum: unknown type" (Done tt))
          (fun _ => Done (mkXDim3 r0 r0 r0)).
End Defs.
Arguments t : clear implicits.
Arguments Object : clear implicits.
End InjectorMomentum.

(* ------------------------------------------------------------------ *)
(** * Two arithmetics and an engine to run the samplers on *)

(** The comparisons of the real numbers, as tests. *)
Definition Rltb (a b : R) : bool := if Rlt_dec a b then true else false.
Definition Rleb (a b : R) : bool := if Rle_dec a b then true else false.
Definition Reqb (a b : R) : bool := if Req_dec_T a b then true else false.

(** The ideal arithmetic: [amrex::Real] read as the real numbers. *)
#[export] Instance R_real : AmrexReal R := {|
  r0 := 0%R;
  r1 := 1%R;
  r2 := 2%R;
  r0_6 := (6 / 10)%R;
  r0_1 := (1 / 10)%R;
  r0_5 := (1 / 2)%R;
  rpi := PI;
  radd := Rplus;
  rsub := Rminus;
  rmul := Rmult;
  rdiv := Rdiv;
  rneg := Ropp;
  rsqrt := sqrt;
  rlog := ln;
  rexp := exp;
  rsin := sin;
  rcos := cos;
  rlt := Rltb;
  rle := Rleb;
  req := Reqb
|}.

(** The functions of [<cmath>] that primitive floats do not provide. *)
Record libm : Type := mkLibm {
  flog : float -> float;
  fexp : float -> float;
  fsin : float -> float;
  fcos : float -> float
}.

(** IEEE binary64: [amrex::Real] in a double-precision build.  The
    literals are the doubles nearest to 0.6, 0.1 and pi. *)
Definition binary64_real (lm : libm) : AmrexReal float := {|
  r0 := 0%float;
  r1 := 1%float;
  r2 := 2%float;
  r0_6 := 0x1.3333333333333p-1%float;
  r0_1 := 0x1.999999999999ap-4%float;
  r0_5 := 0.5%float;
  rpi := 0x1.921fb54442d18p+1%float;
  radd := PrimFloat.add;
  rsub := PrimFloat.sub;
  rmul := PrimFloat.mul;
  rdiv := PrimFloat.div;
  rneg := PrimFloat.opp;
  rsqrt := PrimFloat.sqrt;
  rlog := flog lm;
  rexp := fexp lm;
  rsin := fsin lm;
  rcos := fcos lm;
  rlt := PrimFloat.ltb;
  rle := PrimFloat.leb;
  req := PrimFloat.eqb
|}.

(** A double is finite: neither an infinity nor a NaN. *)
Definition is_finite (f : float) : bool :=
  negb (PrimFloat.is_nan f || PrimFloat.is_infinity f).

(** An engine that replays two fixed sequences: [uniforms] for
    [amrex::Random] and [normals], standard normal variates, for
    [amrex::RandomNormal]; the state is the number of draws made. *)
Definition replay_engine {T} {A : AmrexReal T} (uniforms normals : nat -> T)
  : RandomEngine T nat := {|
  Random := fun n => (uniforms n, S n);
  RandomNormal := fun mean stddev n =>
    (radd mean (rmul stddev (normals n)), S n)
|}.

(* ------------------------------------------------------------------ *)
(** * Notions used to state the properties *)

(** The component of a momentum along an axis. *)
Definition component {T : Type} (v : XDim3 T) (axis : Z) : T := get3 (x v, y v, z v) axis.

Section VelocityTest.
Context {T : Type} {A : AmrexReal T}.
Local Open Scope rt_scope.

(** The test on the velocity made by both relativistic samplers. *)
Definition beta_out_of_range (beta : T) : bool :=
  (beta <=? - r1) || (beta >=? r1).
End VelocityTest.

(** ** The rejection loops in the words of the specification

    Over the real numbers and an arbitrary engine.  Each loop is a
    relation between the engine state it starts from, the value it gives
    and the engine state it leaves. *)

Section SpecificationLoops.
Context {E : Type} {G : RandomEngine R E}.
Import InjectorMomentumJuttner.

(** The rejection loop in the words of the specification.  One round
    draws [xi1], [xi2], [xi3] and [xi4] and sets
    [u_axis = -theta*ln(xi1*xi2*xi3)], [gamma = sqrt(1+u_axis^2)] and
    [x1 = theta*ln(xi4)]. *)
Definition sobol_round (theta : R) (e : E) : (R * R * R) * E :=
  let '(xi1, e1) := Random e in
  let '(xi2, e2) := Random e1 in
  let '(xi3, e3) := Random e2 in
  let '(xi4, e4) := Random e3 in
  let u_axis := (- theta * ln (xi1 * xi2 * xi3))%R in
  ((u_axis, sqrt (1 + u_axis * u_axis), (theta * ln xi4)%R), e4).

(** Rounds are repeated while [u_axis - gamma <= x1]; the first round for
    which this fails gives the speed. *)
Inductive sobol_draw (theta : R) : E -> R * R * R -> E -> Prop :=
| sobol_accept (e e' : E) (u_axis gamma x1 : R) :
    sobol_round theta e = ((u_axis, gamma, x1), e') ->
    ~ (u_axis - gamma <= x1)%R ->
    sobol_draw theta e (u_axis, gamma, x1) e'
| sobol_retry (e e1 e' : E) (u_axis gamma x1 : R) (r : R * R * R) :
    sobol_round theta e = ((u_axis, gamma, x1), e1) ->
    (u_axis - gamma <= x1)%R ->
    sobol_draw theta e1 r e' ->
    sobol_draw theta e r e'.

(** The test of the [while] on the variables of the source. *)
Definition sobol_test (dir : Z) (l : locals R) : bool :=
  rle (rsub (get3 (u l) dir) (gamma l)) (x1 l).

(** The end of the local-frame stage in the words of the specification:
    with two fresh uniform draws [x1] and [x2] the transverse components
    are [2*u_axis*sqrt(x1*(1-x1))*sin(2*pi*x2)] and
    [2*u_axis*sqrt(x1*(1-x1))*cos(2*pi*x2)], and the component along the
    boost axis is [u_axis*(2*x1-1)]; [gamma] is the one of the accepted
    round. *)
Definition on_random_direction (dir : Z) (u_axis g : R) (e1 : E)
           (l : locals R) (e' : E) : Prop :=
  let '(x1, e2) := Random e1 in
  let '(x2, e3) := Random e2 in
  e' = e3 /\
  gamma l = g /\
  get3 (u l) (Z.rem (dir + 1) 3)
  = (2 * u_axis * sqrt (x1 * (1 - x1)) * sin (2 * PI * x2))%R /\
  get3 (u l) (Z.rem (dir + 2) 3)
  = (2 * u_axis * sqrt (x1 * (1 - x1)) * cos (2 * PI * x2))%R /\
  get3 (u l) dir = (u_axis * (2 * x1 - 1))%R.

Definition u_approx (u_m u_th : R) : R := (u_th / sqrt (1 - u_m / u_th))%R.

Definition prefactor (u_m u_th : R) : R :=
  ((u_m / u_th) / (2 * (u_th * u_th)))%R.

(** One round: the proposal [u_approx*sqrt(-2*ln(xi))] from a draw [xi]
    that excludes 0 (one minus a uniform draw), and the uniform draw it is
    accepted against. *)
Definition low_drift_round (u_m u_th : R) (e : E) : (R * R) * E :=
  let '(d, e1) := Random e in
  let xi := (1 - d)%R in
  let '(a, e2) := Random e1 in
  ((u_approx u_m u_th * sqrt (-2 * ln xi), a)%R, e2).

(** The acceptance probability of a proposal. *)
Definition low_drift_acceptance (u_m u_th u : R) : R :=
  exp (- prefactor u_m u_th * ((u - u_th) * (u - u_th))).

(** Rounds are repeated until a proposal is accepted. *)
Inductive low_drift_draw (u_m u_th : R) : E -> R -> E -> Prop :=
| low_drift_accept (e e' : E) (u a : R) :
    low_drift_round u_m u_th e = ((u, a), e') ->
    (a < low_drift_acceptance u_m u_th u)%R ->
    low_drift_draw u_m u_th e u e'
| low_drift_reject (e e1 e' : E) (u a r : R) :
    low_drift_round u_m u_th e = ((u, a), e1) ->
    ~ (a < low_drift_acceptance u_m u_th u)%R ->
    low_drift_draw u_m u_th e1 r e' ->
    low_drift_draw u_m u_th e r e'.

(** A proposal from the normal distribution centred at [centre] with
    standard deviation [u_th], drawn again while it is negative. *)
Inductive positive_normal_draw (centre u_th : R) : E -> R -> E -> Prop :=
| positive_normal_keep (e e' : E) (u : R) :
    RandomNormal centre u_th e = (u, e') ->
    ~ (u < 0)%R ->
    positive_normal_draw centre u_th e u e'
| positive_normal_redraw (e e1 e' : E) (u r : R) :
    RandomNormal centre u_th e = (u, e1) ->
    (u < 0)%R ->
    positive_normal_draw centre u_th e1 r e' ->
    positive_normal_draw centre u_th e r e'.

Definition high_drift_centre (u_m u_th : R) : R :=
  (u_m + u_th * u_th / u_m)%R.

(** The acceptance probability of a proposal. *)
Definition high_drift_acceptance (u_m u : R) : R :=
  ((u / u_m) * exp (1 - u / u_m))%R.

(** Proposals are repeated until one is accepted against a uniform draw. *)
Inductive high_drift_draw (u_m u_th : R) : E -> R -> E -> Prop :=
| high_drift_accept (e e1 e' : E) (u a : R) :
    positive_normal_draw (high_drift_centre u_m u_th) u_th e u e1 ->
    Random e1 = (a, e') ->
    (a < high_drift_acceptance u_m u)%R ->
    high_drift_draw u_m u_th e u e'
| high_drift_reject (e e1 e2 e' : E) (u a r : R) :
    positive_normal_draw (high_drift_centre u_m u_th) u_th e u e1 ->
    Random e1 = (a, e2) ->
    ~ (a < high_drift_acceptance u_m u)%R ->
    high_drift_draw u_m u_th e2 r e' ->
    high_drift_draw u_m u_th e r e'.
End SpecificationLoops.

(** ** Binary64 on specification floats *)

Section SpecificationFloats.
Local Open Scope Z_scope.

(** A specification float that is neither an infinity nor a NaN. *)
Definition SF_is_finite (r : spec_float) : bool :=
  match r with
  | S754_infinity _ | S754_nan => false
  | _ => true
  end.

Definition SF_one : spec_float := S754_finite false 4503599627370496 (-52).
Definition SF_minus_one : spec_float := S754_finite true 4503599627370496 (-52).

(** [gamma*beta] as [getBulkMomentum] computes it, on specification
    floats. *)
Definition SF_gamma_beta (x : spec_float) : spec_float :=
  SF64mul (SF64div SF_one (SF64sqrt (SF64sub SF_one (SF64mul x x)))) x.

(** A difference that is zero or has a negative sign: what [1 - y] is when
    [y] is at least 1. *)
Definition SF_not_positive (z : spec_float) : Prop :=
  match z with
  | S754_zero _ | S754_nan => True
  | S754_finite s _ _ | S754_infinity s => s = true
  end.
End SpecificationFloats.

(** ** Outcomes without a fatal report *)

(** The outcome is a value or a loop cut short by the fuel: no call of
    [amrex::Abort] and no read of a member that is not stored. *)
Definition value_or_fuel {B : Type} (o : outcome B) : Prop :=
  (exists b, o = Done b) \/ o = OutOfFuel.

(** ** The squared length of a momentum *)

Definition squared_norm (u : arr3 R) : R :=
  (get3 u 0 * get3 u 0 + get3 u 1 * get3 u 1 + get3 u 2 * get3 u 2)%R.

(** ** The invariant of the selector *)

(** The stored tag is the one that goes with the stored member. *)
Definition well_tagged {T : Type} (s : InjectorMomentum.t T) : bool :=
  (InjectorMomentum.type s
   =? InjectorMomentum.stored_kind (InjectorMomentum.object s))%Z.

(** ** Engines and samplers to run *)

(** An engine whose uniform draws are all 1/2 and whose [n]-th standard
    normal variate is [n]. *)
Definition steady_engine : RandomEngine R nat :=
  replay_engine (fun _ => (1 / 2)%R) (fun n => INR n).

(** An engine whose uniform draws are all 1/4: the first round of the
    rejection loop is accepted at temperature 1. *)
Definition quarter_engine : RandomEngine R nat :=
  replay_engine (fun _ => (1 / 4)%R) (fun n => INR n).

(** A flux sampler along axis 0 with central momentum 2, no spread on that
    axis and a negative [flux_direction]. *)
Definition backward_flux_sampler : InjectorMomentumGaussianFlux.t R :=
  InjectorMomentumGaussianFlux.Build 2%R 0%R 0%R 0%R 1%R 1%R 0 (-1).

(** A Boltzmann sampler whose temperature evaluator returns -1 everywhere,
    at rest, with the boost axis 0. *)
Definition cold_boltzmann : InjectorMomentumBoltzmann.t R :=
  InjectorMomentumBoltzmann.make (fun _ _ _ => (-1)%R)
                                 (mkGetVelocity (fun _ _ _ => 0%R) 0).

(** A Boltzmann sampler at rest, with temperature 1 and the boost axis 0. *)
Definition resting_boltzmann : InjectorMomentumBoltzmann.t R :=
  InjectorMomentumBoltzmann.make (fun _ _ _ => 1%R)
                                 (mkGetVelocity (fun _ _ _ => 0%R) 0).

(** A Juttner sampler at rest, with temperature 1 and the boost axis 0. *)
Definition warm_juttner : InjectorMomentumJuttner.t R :=
  InjectorMomentumJuttner.make (fun _ _ _ => 1%R)
                               (mkGetVelocity (fun _ _ _ => 0%R) 0).

(** A velocity evaluator that returns 1 everywhere, with the boost axis 0. *)
Definition luminal_velocity : GetVelocity R :=
  mkGetVelocity (fun _ _ _ => 1%R) 0.

(* ================================================================== *)
(** * Properties *)

(** ** The comparisons of the ideal arithmetic *)

Lemma Rltb_true (a b : R) : Rltb a b = true <-> (a < b)%R.
Proof. unfold Rltb; destruct (Rlt_dec a b); split; intros; congruence. Qed.

Lemma Rltb_false (a b : R) : Rltb a b = false <-> ~ (a < b)%R.
Proof. unfold Rltb; destruct (Rlt_dec a b); split; intros; congruence. Qed.

Lemma Rleb_true (a b : R) : Rleb a b = true <-> (a <= b)%R.
Proof. unfold Rleb; destruct (Rle_dec a b); split; intros; congruence. Qed.

Lemma Rleb_false (a b : R) : Rleb a b = false <-> ~ (a <= b)%R.
Proof. unfold Rleb; destruct (Rle_dec a b); split; intros; congruence. Qed.

Lemma Reqb_true (a b : R) : Reqb a b = true <-> a = b.
Proof. unfold Reqb; destruct (Req_dec_T a b); split; intros; congruence. Qed.

Lemma Reqb_false (a b : R) : Reqb a b = false <-> a <> b.
Proof. unfold Reqb; destruct (Req_dec_T a b); split; intros; congruence. Qed.

(** ** The local array *)

Lemma get3_set3_same {T} (u : arr3 T) (i : Z) (v : T) :
  (0 <= i < 3)%Z -> get3 (set3 u i v) i = v.
Proof.
  intros Hi. destruct u as [[a b] c].
  assert (i = 0 \/ i = 1 \/ i = 2)%Z as [-> | [-> | ->]] by lia; reflexivity.
Qed.

Lemma get3_set3_other {T} (u : arr3 T) (i j : Z) (v : T) :
  (0 <= i < 3)%Z -> (0 <= j < 3)%Z -> i <> j ->
  get3 (set3 u i v) j = get3 u j.
Proof.
  intros Hi Hj Hij. destruct u as [[a b] c].
  assert (i = 0 \/ i = 1 \/ i = 2)%Z as [-> | [-> | ->]] by lia;
    assert (j = 0 \/ j = 1 \/ j = 2)%Z as [-> | [-> | ->]] by lia;
    try reflexivity; congruence.
Qed.

(** ** The flux kernel with no spread *)

(** When the test [u_th == 0] succeeds the kernel returns before any
    draw, in every arithmetic. *)
Lemma generateGaussianFluxDist_trivial_case :
  forall (T E : Type) (A : AmrexReal T) (G : RandomEngine T E)
         (fuel : nat) (u_m u_th : T) (e : E),
    (u_th =? r0)%rt = true ->
    generateGaussianFluxDist fuel u_m u_th e = Done (u_m, e).
Proof.
  intros T E A G fuel u_m u_th e Hz.
  unfold generateGaussianFluxDist. rewrite Hz. reflexivity.
Qed.

(** Over the real numbers: a spread equal to 0. *)
Lemma generateGaussianFluxDist_zero_spread_R :
  forall (E : Type) (G : RandomEngine R E) (fuel : nat) (u_m : R) (e : E),
    generateGaussianFluxDist fuel u_m 0%R e = Done (u_m, e).
Proof.
  intros. apply generateGaussianFluxDist_trivial_case.
  apply Reqb_true. reflexivity.
Qed.

(** Over binary64, where both zeros pass the test. *)
Lemma generateGaussianFluxDist_zero_spread_binary64 :
  forall (lm : libm) (E : Type) (G : RandomEngine float E)
         (fuel : nat) (u_m : float) (e : E),
    generateGaussianFluxDist (A := binary64_real lm) fuel u_m 0%float e
      = Done (u_m, e) /\
    generateGaussianFluxDist (A := binary64_real lm) fuel u_m (-0)%float e
      = Done (u_m, e).
Proof.
  intros; split; apply generateGaussianFluxDist_trivial_case; reflexivity.
Qed.

(** C5. When the spread is zero (the test [u_th == 0] succeeds),
    [generateGaussianFluxDist] returns [u_m] itself and hands the engine
    back in the state it received it in: no draw is made.  The statement
    holds for every fuel and for every arithmetic, hence whatever the
    division does: no quotient takes part in the result, in particular
    none by the zero spread. *)
Theorem generateGaussianFluxDist_zero_spread :
  forall (T E : Type) (A : AmrexReal T) (G : RandomEngine T E)
         (fuel : nat) (u_m u_th : T) (e : E),
    (u_th =? r0)%rt = true ->
    generateGaussianFluxDist fuel u_m u_th e = Done (u_m, e).
Proof.
  intros T E A G fuel u_m u_th e Hz.
  unfold generateGaussianFluxDist.
  destruct (u_th =? r0)%rt; [reflexivity | discriminate].
Qed.

Lemma generateGaussianFluxDist_zero_spread_witness :
  generateGaussianFluxDist
    (G := replay_engine (fun _ => (1 / 2)%R) (fun _ => 0%R))
    0 3%R 0%R 7%nat = Done (3%R, 7%nat).
Proof.
  apply generateGaussianFluxDist_zero_spread.
  apply Reqb_true. reflexivity.
Defined.

(** ** Construction of the flux sampler *)

(** C6. With the flux-normal axis 0, 1 or 2, the constructor of
    [InjectorMomentumGaussianFlux] reports its fatal error exactly when the
    central momentum along that axis tests strictly negative ([< 0]); it
    then hands no sampler to its caller, so that no sample can be drawn
    from it, and otherwise returns the sampler holding the arguments.
    Over the real numbers: an on-axis central momentum of -1 along axis 0
    aborts, and one that is zero or positive constructs. *)
Theorem GaussianFlux_construction_aborts_iff :
  (forall (T : Type) (A : AmrexReal T) (ux uy uz tx ty tz : T)
          (axis dirn : Z),
      (0 <= axis < 3)%Z ->
      let o := InjectorMomentumGaussianFlux.make ux uy uz tx ty tz axis dirn in
      let on_axis := get3 (ux, uy, uz) axis in
      (aborts o = true <-> (on_axis <? r0)%rt = true) /\
      (returned o = None <-> (on_axis <? r0)%rt = true) /\
      ((on_axis <? r0)%rt = false ->
       o = Done (InjectorMomentumGaussianFlux.Build
                   ux uy uz tx ty tz axis dirn))) /\
  (forall (uy uz tx ty tz : R) (dirn : Z),
      let o := InjectorMomentumGaussianFlux.make (-1)%R uy uz tx ty tz 0 dirn in
      aborts o = true /\ returned o = None) /\
  (forall (ux uy uz tx ty tz : R) (dirn : Z),
      (0 <= ux)%R ->
      InjectorMomentumGaussianFlux.make ux uy uz tx ty tz 0 dirn
      = Done (InjectorMomentumGaussianFlux.Build ux uy uz tx ty tz 0 dirn)).
Proof.
  assert (G : forall (T : Type) (A : AmrexReal T) (ux uy uz tx ty tz : T)
                     (axis dirn : Z),
             (0 <= axis < 3)%Z ->
             let o := InjectorMomentumGaussianFlux.make
                        ux uy uz tx ty tz axis dirn in
             let on_axis := get3 (ux, uy, uz) axis in
             (aborts o = true <-> (on_axis <? r0)%rt = true) /\
             (returned o = None <-> (on_axis <? r0)%rt = true) /\
             ((on_axis <? r0)%rt = false ->
              o = Done (InjectorMomentumGaussianFlux.Build
                          ux uy uz tx ty tz axis dirn))).
  { intros T A ux uy uz tx ty tz axis dirn Hax.
    assert (axis = 0 \/ axis = 1 \/ axis = 2)%Z as [-> | [-> | ->]] by lia;
      cbv zeta;
      unfold InjectorMomentumGaussianFlux.make,
        InjectorMomentumGaussianFlux.raise_error,
        WARPX_ALWAYS_ASSERT_WITH_MESSAGE; simpl;
      match goal with
      | |- context [rlt ?a r0] => destruct (rlt a r0)
      end; simpl; repeat split; intros; congruence. }
  split; [exact G | split].
  - intros uy uz tx ty tz dirn.
    destruct (G R R_real (-1)%R uy uz tx ty tz 0%Z dirn) as (Ha & Hr & _);
      [lia |].
    assert (Hneg : (get3 ((-1)%R, uy, uz) 0 <? r0)%rt = true)
      by (apply Rltb_true; simpl; lra).
    split; [apply Ha | apply Hr]; exact Hneg.
  - intros ux uy uz tx ty tz dirn Hux.
    destruct (G R R_real ux uy uz tx ty tz 0%Z dirn) as (_ & _ & Hd); [lia |].
    apply Hd. apply Rltb_false. simpl. lra.
Qed.

Lemma GaussianFlux_construction_aborts_iff_witness :
  (0 <= 0 < 3)%Z /\
  aborts (InjectorMomentumGaussianFlux.make
            (-1)%R 0%R 0%R 1%R 1%R 1%R 0 1) = true.
Proof.
  split; [lia |].
  destruct GaussianFlux_construction_aborts_iff as (Hg & _ & _).
  destruct (Hg R R_real (-1)%R 0%R 0%R 1%R 1%R 1%R 0%Z 1%Z) as (Ha & _);
    [lia |].
  apply Ha. apply Rltb_true. simpl. lra.
Defined.

(** The same run on binary64. *)
Example GaussianFlux_construction_binary64 :
  forall lm : libm,
    aborts (InjectorMomentumGaussianFlux.make (A := binary64_real lm)
              (-1)%float 0%float 0%float 1%float 1%float 1%float 0 1) = true /\
    aborts (InjectorMomentumGaussianFlux.make (A := binary64_real lm)
              0%float 0%float 0%float 1%float 1%float 1%float 0 1) = false.
Proof. intros lm; split; reflexivity. Qed.

(** ** The mean of the flux sampler *)

Section GaussianFluxMean.
Context {T E : Type} {A : AmrexReal T} {G : RandomEngine T E}.
Import InjectorMomentumGaussianFlux.

Lemma flux_axis_parameters_in_range (s : t T) :
  (0 <= m_flux_normal_axis s < 3)%Z ->
  flux_axis_parameters s
  = (get3 (m_ux_m s, m_uy_m s, m_uz_m s) (m_flux_normal_axis s),
     get3 (m_ux_th s, m_uy_th s, m_uz_th s) (m_flux_normal_axis s)).
Proof.
  intros Hax. unfold flux_axis_parameters.
  assert (m_flux_normal_axis s = 0 \/ m_flux_normal_axis s = 1
          \/ m_flux_normal_axis s = 2)%Z as [-> | [-> | ->]] by lia;
    reflexivity.
Qed.

(** Every sample: its on-axis component is the draw of the flux kernel,
    negated when [flux_direction] is negative. *)
Lemma getMomentum_on_axis (fuel : nat) (s : t T) (px py pz : T) (e : E) :
  (0 <= m_flux_normal_axis s < 3)%Z ->
  forall v e',
    getMomentum fuel s px py pz e = Done (v, e') ->
    exists u e1,
      generateGaussianFluxDist fuel (fst (flux_axis_parameters s))
                               (snd (flux_axis_parameters s)) e
      = Done (u, e1) /\
      component v (m_flux_normal_axis s)
      = if (m_flux_direction s <? 0)%Z then rneg u else u.
Proof.
  intros Hax v e' Hrun. unfold getMomentum in Hrun.
  destruct (flux_axis_parameters s) as [u_m u_th]; simpl.
  unfold bind in Hrun.
  destruct (generateGaussianFluxDist fuel u_m u_th e) as [[u e1] | | |];
    simpl in Hrun; try discriminate.
  exists u, e1. split; [reflexivity |].
  assert (m_flux_normal_axis s = 0 \/ m_flux_normal_axis s = 1
          \/ m_flux_normal_axis s = 2)%Z as [Ha | [Ha | Ha]] by lia;
    rewrite Ha in *; simpl in Hrun; unfold ret, lift in Hrun; simpl in Hrun;
    inversion Hrun; subst; reflexivity.
Qed.

Lemma getMomentum_returns (fuel : nat) (s : t T) (px py pz : T) (e : E) :
  forall u e1,
    generateGaussianFluxDist fuel (fst (flux_axis_parameters s))
                             (snd (flux_axis_parameters s)) e
    = Done (u, e1) ->
    exists v e', getMomentum fuel s px py pz e = Done (v, e').
Proof.
  intros u e1 Hk. unfold getMomentum.
  destruct (flux_axis_parameters s) as [u_m u_th]; simpl in Hk.
  unfold bind. rewrite Hk. simpl.
  destruct (m_flux_normal_axis s =? 0)%Z, (m_flux_normal_axis s =? 1)%Z,
    (m_flux_normal_axis s =? 2)%Z; unfold ret, lift; simpl; eauto.
Qed.
End GaussianFluxMean.

(** C7. [getBulkMomentum] of the flux sampler returns the three configured
    central values as they are, whatever the position, the spreads, the
    flux axis and the sign [flux_direction].  When [flux_direction] is
    negative, every sample has the draw of the flux kernel negated as its
    on-axis component, while the on-axis component of the mean is the
    configured central value, not negated.  A sample is returned whenever
    the flux kernel returns its draw. *)
Theorem GaussianFlux_mean_is_nominal :
  forall (T E : Type) (A : AmrexReal T) (G : RandomEngine T E)
         (s : InjectorMomentumGaussianFlux.t T) (px py pz : T),
    let axis := InjectorMomentumGaussianFlux.m_flux_normal_axis s in
    let u_m := fst (InjectorMomentumGaussianFlux.flux_axis_parameters s) in
    let u_th := snd (InjectorMomentumGaussianFlux.flux_axis_parameters s) in
    InjectorMomentumGaussianFlux.getBulkMomentum s px py pz
    = mkXDim3 (InjectorMomentumGaussianFlux.m_ux_m s)
              (InjectorMomentumGaussianFlux.m_uy_m s)
              (InjectorMomentumGaussianFlux.m_uz_m s) /\
    ((0 <= axis < 3)%Z ->
     (InjectorMomentumGaussianFlux.m_flux_direction s < 0)%Z ->
     component (InjectorMomentumGaussianFlux.getBulkMomentum s px py pz) axis
     = u_m /\
     forall (fuel : nat) (e : E) (v : XDim3 T) (e' : E),
       InjectorMomentumGaussianFlux.getMomentum fuel s px py pz e
       = Done (v, e') ->
       exists u e1,
         generateGaussianFluxDist fuel u_m u_th e = Done (u, e1) /\
         component v axis = rneg u) /\
    (forall (fuel : nat) (e : E) (u : T) (e1 : E),
        generateGaussianFluxDist fuel u_m u_th e = Done (u, e1) ->
        exists v e',
          InjectorMomentumGaussianFlux.getMomentum fuel s px py pz e
          = Done (v, e')).
Proof.
  intros T E A G s px py pz axis u_m u_th.
  split; [reflexivity |].
  split; [| intros fuel e u e1 Hk;
            exact (getMomentum_returns fuel s px py pz e Hk)].
  intros Hax Hdir. split.
  - subst u_m axis.
    rewrite (flux_axis_parameters_in_range s Hax). reflexivity.
  - intros fuel e v e' Hrun.
    destruct (getMomentum_on_axis fuel s px py pz e Hax Hrun)
      as (u & e1 & Hk & Hc).
    exists u, e1. split; [exact Hk |].
    subst axis. rewrite Hc.
    apply Z.ltb_lt in Hdir. rewrite Hdir. reflexivity.
Qed.

Lemma GaussianFlux_mean_is_nominal_witness :
  component (InjectorMomentumGaussianFlux.getBulkMomentum
               backward_flux_sampler 0%R 0%R 0%R) 0 = 2%R /\
  exists u e1,
    generateGaussianFluxDist
      (G := replay_engine (fun _ => (1 / 2)%R) (fun _ => 0%R))
      0 2%R 0%R 0%nat = Done (u, e1) /\
    component (mkXDim3 (- (2))%R (0 + 1 * 0)%R (0 + 1 * 0)%R) 0 = rneg u.
Proof.
  pose proof (@GaussianFlux_mean_is_nominal R nat R_real
                (replay_engine (fun _ => (1 / 2)%R) (fun _ => 0%R))
                backward_flux_sampler 0%R 0%R 0%R) as (_ & Hs & _).
  destruct Hs as [Hmean Hsample]; [simpl; lia | simpl; lia |].
  split; [exact Hmean |].
  apply (Hsample 0%nat 0%nat _ 2%nat).
  unfold InjectorMomentumGaussianFlux.getMomentum, bind. simpl.
  rewrite generateGaussianFluxDist_zero_spread_R. reflexivity.
Defined.

(** ** The selector *)

(** C9. Whatever member the union stores, a selector whose tag is one of
    the eight enumerators and matches the stored member runs the
    [getMomentum] and the [getBulkMomentum] of that member, on the same
    position (and with the same engine).  The branch is chosen by the tag:
    with a recognized tag that does not match the stored member, the
    member named by the tag is read, not the stored one.  With a tag that
    is none of the eight, both operations call [amrex::Abort] with
    "InjectorMomentum: unknown type" and, where that call returns, give
    back the vector (0,0,0); neither hands a value to its caller without
    that report. *)
Theorem InjectorMomentum_dispatch :
  forall (T E : Type) (A : AmrexReal T) (G : RandomEngine T E)
         (fuel : nat) (px py pz : T),
    let sample s := InjectorMomentum.getMomentum (G := G) fuel s px py pz in
    let mean s := InjectorMomentum.getBulkMomentum s px py pz in
    (forall o,
        let s := InjectorMomentum.Build InjectorMomentum.Type_.constant
                   (InjectorMomentum.constant o) in
        sample s = InjectorMomentumConstant.getMomentum o px py pz /\
        mean s = Done (InjectorMomentumConstant.getBulkMomentum o px py pz)) /\
    (forall o,
        let s := InjectorMomentum.Build InjectorMomentum.Type_.gaussian
                   (InjectorMomentum.gaussian o) in
        sample s = InjectorMomentumGaussian.getMomentum o px py pz /\
        mean s = Done (InjectorMomentumGaussian.getBulkMomentum o px py pz)) /\
    (forall o,
        let s := InjectorMomentum.Build InjectorMomentum.Type_.gaussianflux
                   (InjectorMomentum.gaussianflux o) in
        sample s = InjectorMomentumGaussianFlux.getMomentum fuel o px py pz /\
        mean s
        = Done (InjectorMomentumGaussianFlux.getBulkMomentum o px py pz)) /\
    (forall o,
        let s := InjectorMomentum.Build InjectorMomentum.Type_.uniform
                   (InjectorMomentum.uniform o) in
        sample s = InjectorMomentumUniform.getMomentum o px py pz /\
        mean s = Done (InjectorMomentumUniform.getBulkMomentum o px py pz)) /\
    (forall o,
        let s := InjectorMomentum.Build InjectorMomentum.Type_.boltzmann
                   (InjectorMomentum.boltzmann o) in
        sample s = InjectorMomentumBoltzmann.getMomentum o px py pz /\
        mean s = Done (InjectorMomentumBoltzmann.getBulkMomentum o px py pz)) /\
    (forall o,
        let s := InjectorMomentum.Build InjectorMomentum.Type_.juttner
                   (InjectorMomentum.juttner o) in
        sample s = InjectorMomentumJuttner.getMomentum fuel o px py pz /\
        mean s = Done (InjectorMomentumJuttner.getBulkMomentum o px py pz)) /\
    (forall o,
        let s := InjectorMomentum.Build
                   InjectorMomentum.Type_.radial_expansion
                   (InjectorMomentum.radial_expansion o) in
        sample s = InjectorMomentumRadialExpansion.getMomentum o px py pz /\
        mean s
        = Done (InjectorMomentumRadialExpansion.getBulkMomentum o px py pz)) /\
    (forall o,
        let s := InjectorMomentum.Build InjectorMomentum.Type_.parser
                   (InjectorMomentum.parser o) in
        sample s = InjectorMomentumParser.getMomentum o px py pz /\
        mean s = Done (InjectorMomentumParser.getBulkMomentum o px py pz)) /\
    (forall (type : Z) (obj : InjectorMomentum.Object T) (e : E),
        InjectorMomentum.recognized type = true ->
        type <> InjectorMomentum.stored_kind obj ->
        sample (InjectorMomentum.Build type obj) e = Undefined /\
        mean (InjectorMomentum.Build type obj) = Undefined) /\
    (forall (type : Z) (obj : InjectorMomentum.Object T) (e : E),
        InjectorMomentum.recognized type = false ->
        let s := InjectorMomentum.Build type obj in
        sample s e
        = Aborted "InjectorMomentum: unknown type"
                  (Done (mkXDim3 r0 r0 r0, e)) /\
        mean s
        = Aborted "InjectorMomentum: unknown type"
                  (Done (mkXDim3 r0 r0 r0)) /\
        reports (mean s) = ["InjectorMomentum: unknown type"] /\
        emitted (mean s) = Some (mkXDim3 r0 r0 r0) /\
        returned (sample s e) = None /\
        returned (mean s) = None).
Proof.
  intros T E A G fuel px py pz sample mean.
  repeat match goal with
         | |- _ /\ _ => split
         end; try (intros o s; split; reflexivity).
  - intros type obj e Hrec Hneq.
    unfold InjectorMomentum.recognized in Hrec.
    apply andb_prop in Hrec as [Hlo Hhi].
    apply Z.leb_le in Hlo. apply Z.leb_le in Hhi.
    assert (type = 0 \/ type = 1 \/ type = 2 \/ type = 3 \/ type = 4
            \/ type = 5 \/ type = 6 \/ type = 7)%Z
      as [-> | [-> | [-> | [-> | [-> | [-> | [-> | ->]]]]]]] by lia;
      destruct obj; simpl in Hneq; try (exfalso; apply Hneq; reflexivity);
      split; reflexivity.
  - intros type obj e Hrec s.
    unfold InjectorMomentum.recognized in Hrec.
    apply andb_false_iff in Hrec.
    assert (Hout : (type < 0 \/ 7 < type)%Z)
      by (destruct Hrec as [Hr | Hr]; apply Z.leb_gt in Hr; lia).
    subst sample mean s.
    unfold InjectorMomentum.getMomentum, InjectorMomentum.getBulkMomentum,
      InjectorMomentum.Type_.parser, InjectorMomentum.Type_.gaussian,
      InjectorMomentum.Type_.gaussianflux, InjectorMomentum.Type_.uniform,
      InjectorMomentum.Type_.boltzmann, InjectorMomentum.Type_.juttner,
      InjectorMomentum.Type_.constant,
      InjectorMomentum.Type_.radial_expansion.
    cbn [InjectorMomentum.type InjectorMomentum.object].
    repeat match goal with
           | |- context [(type =? ?k)%Z] =>
               replace (type =? k)%Z with false
                 by (symmetry; apply Z.eqb_neq; lia)
           end.
    repeat split; reflexivity.
Qed.

Lemma InjectorMomentum_dispatch_witness :
  InjectorMomentum.recognized 8 = false /\
  InjectorMomentum.getMomentum
    (G := replay_engine (fun _ => (1 / 2)%R) (fun _ => 0%R)) 0
    (InjectorMomentum.Build 8 (InjectorMomentum.constant
       (InjectorMomentumConstant.make 1%R 2%R 3%R))) 0%R 0%R 0%R 5%nat
  = Aborted "InjectorMomentum: unknown type"
            (Done (mkXDim3 0%R 0%R 0%R, 5%nat)).
Proof.
  split; [reflexivity |].
  pose proof (@InjectorMomentum_dispatch R nat R_real
                (replay_engine (fun _ => (1 / 2)%R) (fun _ => 0%R))
                0%nat 0%R 0%R 0%R) as Hd.
  cbv zeta in Hd.
  destruct Hd as (_ & _ & _ & _ & _ & _ & _ & _ & _ & Hunknown).
  destruct (Hunknown 8%Z (InjectorMomentum.constant
              (InjectorMomentumConstant.make 1%R 2%R 3%R)) 5%nat)
    as (Hs & _); [reflexivity |].
  exact Hs.
Defined.

(** ** The checks made when a sample is drawn *)

Lemma aborts_obind {A B} (o : outcome A) (k : A -> outcome B) :
  aborts o = false ->
  (forall a, aborts (k a) = false) ->
  aborts (obind o k) = false.
Proof. destruct o; simpl; intros Ho Hk; auto; discriminate. Qed.

Lemma obind_ext {A B} (o : outcome A) (f g : A -> outcome B) :
  (forall a, f a = g a) -> obind o f = obind o g.
Proof.
  intros Hfg. induction o as [a | msg k IH | |]; simpl;
    [apply Hfg | rewrite IH; reflexivity | reflexivity | reflexivity].
Qed.

Lemma obind_assoc {A B C} (o : outcome A) (f : A -> outcome B)
      (g : B -> outcome C) :
  obind (obind o f) g = obind o (fun a => obind (f a) g).
Proof.
  induction o as [a | msg k IH | |]; simpl;
    [reflexivity | rewrite IH; reflexivity | reflexivity | reflexivity].
Qed.

Section Checks.
Context {T E : Type} {A : AmrexReal T} {G : RandomEngine T E}.
Local Open Scope rt_scope.

(** Boltzmann: a sample that passes both checks is returned, and it is the
    local sample transformed with one more uniform draw. *)
Lemma Boltzmann_getMomentum_checked (s : InjectorMomentumBoltzmann.t T)
      (px py pz : T) (e : E) :
  let theta := InjectorMomentumBoltzmann.temperature s px py pz in
  let beta := velocity_at (InjectorMomentumBoltzmann.velocity s) px py pz in
  let dir := direction (InjectorMomentumBoltzmann.velocity s) in
  (theta <? r0) = false ->
  beta_out_of_range beta = false ->
  exists u e1,
    InjectorMomentumBoltzmann.local_sample (rsqrt theta) dir e
    = Done (u, e1) /\
    InjectorMomentumBoltzmann.getMomentum s px py pz e
    = Done (XDim3_of_arr3
              (lorentz_boost beta (InjectorMomentumBoltzmann.gamma_of u) dir
                 (flip beta (InjectorMomentumBoltzmann.gamma_of u)
                       (fst (Random e1)) dir u)),
            snd (Random e1)).
Proof.
  intros theta beta dir Ht Hb.
  unfold InjectorMomentumBoltzmann.getMomentum.
  fold theta beta dir. unfold beta_out_of_range in Hb.
  rewrite Ht, Hb. unfold when, bind, ret. simpl.
  unfold InjectorMomentumBoltzmann.local_sample, bind, lift, ret. simpl.
  eexists _, _. split; reflexivity.
Qed.

Lemma Boltzmann_getMomentum_aborts_iff (s : InjectorMomentumBoltzmann.t T)
      (px py pz : T) (e : E) :
  let theta := InjectorMomentumBoltzmann.temperature s px py pz in
  let beta := velocity_at (InjectorMomentumBoltzmann.velocity s) px py pz in
  let o := InjectorMomentumBoltzmann.getMomentum s px py pz e in
  (aborts o = true <-> (theta <? r0) = true \/ beta_out_of_range beta = true)
  /\ (returned o = None
      <-> (theta <? r0) = true \/ beta_out_of_range beta = true).
Proof.
  intros theta beta o.
  destruct (theta <? r0) eqn:Ht.
  - subst o. unfold InjectorMomentumBoltzmann.getMomentum.
    fold theta. rewrite Ht. unfold when, bind, Abort. simpl.
    split; split; auto.
  - destruct (beta_out_of_range beta) eqn:Hb.
    + subst o. unfold InjectorMomentumBoltzmann.getMomentum.
      fold theta beta. unfold beta_out_of_range in Hb. rewrite Ht, Hb.
      unfold when, bind, Abort, ret. simpl.
      split; split; auto.
    + destruct (Boltzmann_getMomentum_checked s px py pz e Ht Hb)
        as (u & e1 & _ & Hrun).
      subst o. rewrite Hrun. simpl.
      split; split; intros H; try discriminate;
        destruct H; discriminate.
Qed.

(** Juttner: the Sobol loop and the local sample never call
    [amrex::Abort]. *)
Lemma sobol_loop_no_abort (fuel : nat) (theta : T) (dir : Z) :
  forall (l : InjectorMomentumJuttner.locals T) (e : E),
    aborts (InjectorMomentumJuttner.sobol_loop fuel theta dir l e) = false.
Proof.
  induction fuel as [| fuel IH]; intros l e; simpl;
    destruct (rle _ _); try reflexivity.
  unfold bind, InjectorMomentumJuttner.sobol_body, lift, ret; simpl.
  apply IH.
Qed.

Lemma Juttner_local_sample_no_abort (fuel : nat) (theta : T) (dir : Z) (e : E) :
  aborts (InjectorMomentumJuttner.local_sample fuel theta dir e) = false.
Proof.
  unfold InjectorMomentumJuttner.local_sample, bind.
  apply aborts_obind; [apply sobol_loop_no_abort |].
  intros a. reflexivity.
Qed.

(** Juttner: past the two checks, [getMomentum] is the local sample
    followed by the transform. *)
Lemma Juttner_getMomentum_checked (fuel : nat)
      (s : InjectorMomentumJuttner.t T) (px py pz : T) (e : E) :
  let theta := InjectorMomentumJuttner.temperature s px py pz in
  let beta := velocity_at (InjectorMomentumJuttner.velocity s) px py pz in
  let dir := direction (InjectorMomentumJuttner.velocity s) in
  (theta <? r0_1) = false ->
  beta_out_of_range beta = false ->
  InjectorMomentumJuttner.getMomentum fuel s px py pz e
  = obind (InjectorMomentumJuttner.local_sample fuel theta dir e)
      (fun r =>
         let l := fst r in
         let e1 := snd r in
         Done (XDim3_of_arr3
                 (lorentz_boost beta (InjectorMomentumJuttner.gamma l) dir
                    (flip beta (InjectorMomentumJuttner.gamma l)
                          (fst (Random e1)) dir
                          (InjectorMomentumJuttner.u l))),
               snd (Random e1))).
Proof.
  intros theta beta dir Ht Hb.
  unfold InjectorMomentumJuttner.getMomentum.
  fold theta beta dir. unfold beta_out_of_range in Hb.
  rewrite Ht, Hb. unfold when, bind, ret. simpl. reflexivity.
Qed.

Lemma Juttner_getMomentum_aborts_iff (fuel : nat)
      (s : InjectorMomentumJuttner.t T) (px py pz : T) (e : E) :
  let theta := InjectorMomentumJuttner.temperature s px py pz in
  let beta := velocity_at (InjectorMomentumJuttner.velocity s) px py pz in
  let o := InjectorMomentumJuttner.getMomentum fuel s px py pz e in
  (aborts o = true
   <-> (theta <? r0_1) = true \/ beta_out_of_range beta = true)
  /\ ((theta <? r0_1) = true \/ beta_out_of_range beta = true ->
      returned o = None).
Proof.
  intros theta beta o.
  destruct (theta <? r0_1) eqn:Ht.
  - subst o. unfold InjectorMomentumJuttner.getMomentum.
    fold theta. rewrite Ht. unfold when, bind, Abort. simpl.
    split; [split |]; auto.
  - destruct (beta_out_of_range beta) eqn:Hb.
    + subst o. unfold InjectorMomentumJuttner.getMomentum.
      fold theta beta. unfold beta_out_of_range in Hb. rewrite Ht, Hb.
      unfold when, bind, Abort, ret. simpl.
      split; [split |]; auto.
    + subst o. rewrite (Juttner_getMomentum_checked fuel s px py pz e Ht Hb).
      split; [split |].
      * rewrite aborts_obind;
          [discriminate | apply Juttner_local_sample_no_abort |].
        intros a. reflexivity.
      * intros [H | H]; discriminate.
      * intros [H | H]; discriminate.
Qed.
End Checks.

Lemma beta_out_of_range_R (beta : R) :
  beta_out_of_range beta = true <-> (Rabs beta >= 1)%R.
Proof.
  unfold beta_out_of_range. rewrite orb_true_iff. simpl.
  rewrite 2 Rleb_true.
  unfold Rabs. destruct (Rcase_abs beta); split; intros; lra.
Qed.

(** C3. Over the real numbers.  [getMomentum] of the Boltzmann sampler
    calls [amrex::Abort], and hands no value to its caller, exactly when
    the temperature evaluator yields [theta < 0] or the velocity evaluator
    yields [|beta| >= 1]; [getMomentum] of the Juttner sampler calls
    [amrex::Abort] exactly when [theta < 0.1] or [|beta| >= 1], and then
    hands no value to its caller.  In particular the Boltzmann sampler
    aborts wherever its temperature evaluator returns -1. *)
Theorem getMomentum_aborts_iff :
  forall (E : Type) (G : RandomEngine R E),
    (forall (s : InjectorMomentumBoltzmann.t R) (px py pz : R) (e : E),
        let theta := InjectorMomentumBoltzmann.temperature s px py pz in
        let beta :=
          velocity_at (InjectorMomentumBoltzmann.velocity s) px py pz in
        let o := InjectorMomentumBoltzmann.getMomentum s px py pz e in
        (aborts o = true <-> (theta < 0 \/ Rabs beta >= 1)%R) /\
        (returned o = None <-> (theta < 0 \/ Rabs beta >= 1)%R)) /\
    (forall (fuel : nat) (s : InjectorMomentumJuttner.t R) (px py pz : R)
            (e : E),
        let theta := InjectorMomentumJuttner.temperature s px py pz in
        let beta :=
          velocity_at (InjectorMomentumJuttner.velocity s) px py pz in
        let o := InjectorMomentumJuttner.getMomentum fuel s px py pz e in
        (aborts o = true <-> (theta < 1 / 10 \/ Rabs beta >= 1)%R) /\
        ((theta < 1 / 10 \/ Rabs beta >= 1)%R -> returned o = None)) /\
    (forall (s : InjectorMomentumBoltzmann.t R) (px py pz : R) (e : E),
        InjectorMomentumBoltzmann.temperature s px py pz = (-1)%R ->
        let o := InjectorMomentumBoltzmann.getMomentum s px py pz e in
        aborts o = true /\ returned o = None).
Proof.
  intros E G.
  assert (HB : forall (s : InjectorMomentumBoltzmann.t R) (px py pz : R)
                      (e : E),
             let theta := InjectorMomentumBoltzmann.temperature s px py pz in
             let beta :=
               velocity_at (InjectorMomentumBoltzmann.velocity s) px py pz in
             let o := InjectorMomentumBoltzmann.getMomentum s px py pz e in
             (aborts o = true <-> (theta < 0 \/ Rabs beta >= 1)%R) /\
             (returned o = None <-> (theta < 0 \/ Rabs beta >= 1)%R)).
  { intros s px py pz e theta beta o.
    destruct (Boltzmann_getMomentum_aborts_iff s px py pz e) as [Ha Hr].
    fold theta beta o in Ha, Hr.
    rewrite beta_out_of_range_R in Ha, Hr.
    change (rlt theta r0) with (Rltb theta 0) in Ha, Hr.
    rewrite Rltb_true in Ha, Hr.
    split; assumption. }
  split; [exact HB | split].
  - intros fuel s px py pz e theta beta o.
    destruct (Juttner_getMomentum_aborts_iff fuel s px py pz e) as [Ha Hr].
    fold theta beta o in Ha, Hr.
    rewrite beta_out_of_range_R in Ha, Hr.
    change (rlt theta r0_1) with (Rltb theta (1 / 10)) in Ha, Hr.
    rewrite Rltb_true in Ha, Hr.
    split; assumption.
  - intros s px py pz e Htheta o.
    destruct (HB s px py pz e) as [Ha Hr].
    fold o in Ha, Hr.
    split; [apply Ha | apply Hr]; left; rewrite Htheta; lra.
Qed.

Lemma getMomentum_aborts_iff_witness :
  InjectorMomentumBoltzmann.temperature cold_boltzmann 0%R 0%R 0%R = (-1)%R /\
  aborts (InjectorMomentumBoltzmann.getMomentum
            (G := replay_engine (fun _ => (1 / 2)%R) (fun _ => 0%R))
            cold_boltzmann 0%R 0%R 0%R 0%nat) = true.
Proof.
  split; [reflexivity |].
  destruct (@getMomentum_aborts_iff nat
              (replay_engine (fun _ => (1 / 2)%R) (fun _ => 0%R)))
    as (_ & _ & Hcold).
  destruct (Hcold cold_boltzmann 0%R 0%R 0%R 0%nat) as [Ha _];
    [reflexivity | exact Ha].
Defined.

(** The same run on binary64. *)
Example Boltzmann_cold_binary64 :
  forall lm : libm,
    aborts (InjectorMomentumBoltzmann.getMomentum
              (A := binary64_real lm)
              (G := replay_engine (A := binary64_real lm)
                      (fun _ => 0.5%float) (fun _ => 0%float))
              (InjectorMomentumBoltzmann.make
                 (fun _ _ _ => (-1)%float)
                 (mkGetVelocity (fun _ _ _ => 0%float) 0))
              0%float 0%float 0%float 0%nat) = true.
Proof. intros lm. reflexivity. Qed.

(** ** The mean of the relativistic samplers *)

Lemma bulk_momentum_components {T} {A : AmrexReal T} (v : GetVelocity T)
      (px py pz : T) :
  (0 <= direction v < 3)%Z ->
  let beta := velocity_at v px py pz in
  let m := bulk_momentum v px py pz in
  component m (direction v)
  = rmul (rdiv r1 (rsqrt (rsub r1 (rmul beta beta)))) beta /\
  component m (Z.rem (direction v + 1) 3) = r0 /\
  component m (Z.rem (direction v + 2) 3) = r0.
Proof.
  intros Hdir beta m. subst m. unfold bulk_momentum. fold beta.
  assert (direction v = 0 \/ direction v = 1 \/ direction v = 2)%Z
    as [-> | [-> | ->]] by lia; repeat split; reflexivity.
Qed.

(** C8. Over the real numbers, at a position where the velocity evaluator
    yields [beta] with [|beta| < 1] (so that [1 - beta^2] is positive),
    [getBulkMomentum] of the Boltzmann and of the Juttner sampler return
    the same vector whatever their temperature evaluators are: its
    component along the boost axis is [gamma * beta] with
    [gamma = 1 / sqrt (1 - beta^2)], that is [beta / sqrt (1 - beta^2)], and
    its two other components are 0. *)
Theorem relativistic_mean_is_drift :
  forall (v : GetVelocity R) (tB tJ : GetTemperature R) (px py pz : R),
    let beta := velocity_at v px py pz in
    let dir := direction v in
    let mB := InjectorMomentumBoltzmann.getBulkMomentum
                (InjectorMomentumBoltzmann.make tB v) px py pz in
    let mJ := InjectorMomentumJuttner.getBulkMomentum
                (InjectorMomentumJuttner.make tJ v) px py pz in
    (0 <= dir < 3)%Z ->
    (Rabs beta < 1)%R ->
    let gamma := (1 / sqrt (1 - beta * beta))%R in
    (0 < 1 - beta * beta)%R /\
    mB = mJ /\
    component mB dir = (gamma * beta)%R /\
    (gamma * beta = beta / sqrt (1 - beta * beta))%R /\
    component mB (Z.rem (dir + 1) 3) = 0%R /\
    component mB (Z.rem (dir + 2) 3) = 0%R.
Proof.
  intros v tB tJ px py pz beta dir mB mJ Hdir Hbeta gamma.
  split.
  { unfold Rabs in Hbeta. destruct (Rcase_abs beta); nra. }
  split; [reflexivity |].
  destruct (bulk_momentum_components v px py pz Hdir) as (Hd & H1 & H2).
  subst mB. unfold InjectorMomentumBoltzmann.getBulkMomentum.
  cbn [InjectorMomentumBoltzmann.velocity].
  fold dir beta in Hd, H1, H2 |- *.
  rewrite Hd, H1, H2. simpl.
  repeat split. subst gamma. unfold Rdiv. ring.
Qed.

Lemma relativistic_mean_is_drift_witness :
  (0 <= 2 < 3)%Z /\ (Rabs (1 / 2) < 1)%R /\
  component
    (InjectorMomentumBoltzmann.getBulkMomentum
       (InjectorMomentumBoltzmann.make
          (fun _ _ _ => 1%R) (mkGetVelocity (fun _ _ _ => (1 / 2)%R) 2))
       0%R 0%R 0%R) 2
  = ((1 / sqrt (1 - (1 / 2) * (1 / 2))) * (1 / 2))%R.
Proof.
  assert (Hb : (Rabs (1 / 2) < 1)%R)
    by (unfold Rabs; destruct (Rcase_abs (1 / 2)); lra).
  split; [lia | split; [exact Hb |]].
  destruct (relativistic_mean_is_drift
              (mkGetVelocity (fun _ _ _ => (1 / 2)%R) 2)
              (fun _ _ _ => 1%R) (fun _ _ _ => 1%R) 0%R 0%R 0%R)
    as (_ & _ & Hd & _); [simpl; lia | exact Hb | exact Hd].
Defined.

(** ** A sampler at rest *)

Section AtRest.
Context {E : Type} {G : RandomEngine R E}.

(** With [beta = 0] the quantity compared with the uniform draw is 0, and
    a draw that is not negative is never below it: nothing is negated. *)
Lemma flip_at_rest (gamma xrand : R) (dir : Z) (u : arr3 R) :
  (0 <= xrand)%R ->
  (- 0 * get3 u dir / gamma = 0)%R /\ flip 0%R gamma xrand dir u = u.
Proof.
  intros Hx.
  assert (Hz : (- 0 * get3 u dir / gamma = 0)%R) by (unfold Rdiv; ring).
  split; [exact Hz |].
  unfold flip. simpl. rewrite Hz.
  replace (Rltb xrand 0) with false; [reflexivity |].
  symmetry. apply Rltb_false. lra.
Qed.

(** With [beta = 0] the boost writes back the value it reads. *)
Lemma lorentz_boost_at_rest (gamma : R) (dir : Z) (u : arr3 R) :
  (1 / sqrt (1 - 0 * 0) * (get3 u dir + gamma * 0) = get3 u dir)%R /\
  lorentz_boost 0%R gamma dir u = u.
Proof.
  assert (Hz : (1 / sqrt (1 - 0 * 0) * (get3 u dir + gamma * 0)
                = get3 u dir)%R).
  { replace (1 - 0 * 0)%R with 1%R by ring. rewrite sqrt_1. field. }
  split; [exact Hz |].
  unfold lorentz_boost. simpl. rewrite Hz.
  destruct u as [[a b] c]. unfold set3, get3.
  destruct (dir =? 0)%Z; [reflexivity |].
  destruct (dir =? 1)%Z; [reflexivity |].
  destruct (dir =? 2)%Z; reflexivity.
Qed.
End AtRest.

(** C4. Over the real numbers, with an engine whose uniform draws are not
    negative, at a position where the velocity evaluator yields
    [beta = 0]: the quantity [-beta*u[dir]/gamma] is 0 and the flip leaves
    the vector as it is, the boost writes [u[dir]] back unchanged, and
    [getMomentum] of the Boltzmann sampler (with [theta >= 0]) and of the
    Juttner sampler (with [theta >= 0.1]) return the vector of the local
    sample itself, after one more uniform draw.  The statement is about
    the very formulas run for every [beta]: the definitions have no case
    for [beta = 0]. *)
Theorem transform_at_rest_is_identity :
  forall (E : Type) (G : RandomEngine R E),
    (forall e : E, (0 <= fst (Random e))%R) ->
    (forall (gamma : R) (dir : Z) (u : arr3 R) (e : E),
        (- 0 * get3 u dir / gamma = 0)%R /\
        flip 0%R gamma (fst (Random e)) dir u = u /\
        (1 / sqrt (1 - 0 * 0) * (get3 u dir + gamma * 0) = get3 u dir)%R /\
        lorentz_boost 0%R gamma dir u = u) /\
    (forall (s : InjectorMomentumBoltzmann.t R) (px py pz : R) (e : E),
        let theta := InjectorMomentumBoltzmann.temperature s px py pz in
        let dir := direction (InjectorMomentumBoltzmann.velocity s) in
        velocity_at (InjectorMomentumBoltzmann.velocity s) px py pz = 0%R ->
        (0 <= theta)%R ->
        exists u e1,
          InjectorMomentumBoltzmann.local_sample (sqrt theta) dir e
          = Done (u, e1) /\
          InjectorMomentumBoltzmann.getMomentum s px py pz e
          = Done (XDim3_of_arr3 u, snd (Random e1))) /\
    (forall (fuel : nat) (s : InjectorMomentumJuttner.t R) (px py pz : R)
            (e : E),
        let theta := InjectorMomentumJuttner.temperature s px py pz in
        let dir := direction (InjectorMomentumJuttner.velocity s) in
        velocity_at (InjectorMomentumJuttner.velocity s) px py pz = 0%R ->
        (1 / 10 <= theta)%R ->
        InjectorMomentumJuttner.getMomentum fuel s px py pz e
        = obind (InjectorMomentumJuttner.local_sample fuel theta dir e)
            (fun r => Done (XDim3_of_arr3 (InjectorMomentumJuttner.u (fst r)),
                            snd (Random (snd r))))).
Proof.
  intros E G Hdraw.
  assert (Hrest : beta_out_of_range 0%R = false).
  { unfold beta_out_of_range. simpl. apply orb_false_iff.
    split; apply Rleb_false; lra. }
  split; [| split].
  - intros gamma dir u e.
    destruct (flip_at_rest gamma dir u (Hdraw e)) as [H1 H2].
    destruct (lorentz_boost_at_rest gamma dir u) as [H3 H4].
    repeat split; assumption.
  - intros s px py pz e theta dir Hbeta Htheta.
    assert (Ht : rlt theta r0 = false) by (apply Rltb_false; simpl; lra).
    destruct (Boltzmann_getMomentum_checked s px py pz e) as (u & e1 & Hl & Hr).
    + exact Ht.
    + rewrite Hbeta. exact Hrest.
    + exists u, e1. split; [exact Hl |].
      rewrite Hr, Hbeta.
      rewrite (proj2 (flip_at_rest _ _ _ (Hdraw e1))).
      rewrite (proj2 (lorentz_boost_at_rest _ _ _)). reflexivity.
  - intros fuel s px py pz e theta dir Hbeta Htheta.
    assert (Ht : rlt theta r0_1 = false) by (apply Rltb_false; simpl; lra).
    rewrite (Juttner_getMomentum_checked fuel s px py pz e);
      [| exact Ht | rewrite Hbeta; exact Hrest].
    rewrite Hbeta. fold theta dir.
    destruct (InjectorMomentumJuttner.local_sample fuel theta dir e)
      as [[l e1] | msg k | |] eqn:Hl.
    + simpl.
      rewrite (proj2 (flip_at_rest _ _ _ (Hdraw e1))).
      rewrite (proj2 (lorentz_boost_at_rest _ _ _)). reflexivity.
    + pose proof (Juttner_local_sample_no_abort fuel theta dir e) as Hn.
      rewrite Hl in Hn. discriminate.
    + reflexivity.
    + reflexivity.
Qed.

Lemma transform_at_rest_is_identity_witness :
  (forall e : nat, (0 <= fst (Random (RandomEngine := steady_engine) e))%R) /\
  exists u e1,
    InjectorMomentumBoltzmann.local_sample (G := steady_engine)
      (sqrt 1) 0 0%nat = Done (u, e1) /\
    InjectorMomentumBoltzmann.getMomentum (G := steady_engine)
      resting_boltzmann 0%R 0%R 0%R 0%nat
    = Done (XDim3_of_arr3 u, snd (Random (RandomEngine := steady_engine) e1)).
Proof.
  assert (Hdraw : forall e : nat,
             (0 <= fst (Random (RandomEngine := steady_engine) e))%R)
    by (intros e; simpl; lra).
  split; [exact Hdraw |].
  destruct (@transform_at_rest_is_identity nat steady_engine Hdraw)
    as (_ & HB & _).
  apply (HB resting_boltzmann 0%R 0%R 0%R 0%nat); simpl; [reflexivity | lra].
Defined.

(** ** The local frame of the Juttner sampler *)

Lemma set3_set3_same {T} (u : arr3 T) (i : Z) (v w : T) :
  set3 (set3 u i v) i w = set3 u i w.
Proof.
  destruct u as [[a b] c]. unfold set3.
  destruct (i =? 0)%Z eqn:H0; [reflexivity |].
  destruct (i =? 1)%Z eqn:H1; [reflexivity |].
  destruct (i =? 2)%Z eqn:H2; reflexivity.
Qed.

Section JuttnerLocalFrame.
Context {E : Type} {G : RandomEngine R E}.
Import InjectorMomentumJuttner.

Lemma sobol_body_round (theta : R) (dir : Z) (l : locals R) (e : E) :
  (0 <= dir < 3)%Z ->
  forall u_axis g t e',
    sobol_round theta e = ((u_axis, g, t), e') ->
    sobol_body theta dir l e
    = Done (mkLocals (set3 (u l) dir u_axis) g t, e').
Proof.
  intros Hdir u_axis g t e' Hround.
  unfold sobol_round in Hround.
  unfold sobol_body, bind, lift, ret. simpl.
  destruct (Random e) as [xi1 e1]; simpl.
  destruct (Random e1) as [xi2 e2]; simpl.
  destruct (Random e2) as [xi3 e3]; simpl.
  destruct (Random e3) as [xi4 e4]; simpl.
  rewrite get3_set3_same by exact Hdir.
  inversion Hround; subst. reflexivity.
Qed.

Lemma sobol_loop_unfold (fuel : nat) (theta : R) (dir : Z) (l : locals R)
      (e : E) :
  sobol_loop (S fuel) theta dir l e
  = if sobol_test dir l
    then obind (sobol_body theta dir l e)
               (fun r => sobol_loop fuel theta dir (fst r) (snd r))
    else Done (l, e).
Proof.
  unfold sobol_test. simpl.
  destruct (Rleb (get3 (u l) dir - gamma l) (x1 l)); reflexivity.
Qed.

Lemma sobol_loop_exit (fuel : nat) (theta : R) (dir : Z) (l : locals R)
      (e : E) :
  sobol_test dir l = false -> sobol_loop fuel theta dir l e = Done (l, e).
Proof.
  unfold sobol_test. simpl. intros Ht.
  destruct fuel; simpl; rewrite Ht; reflexivity.
Qed.

Lemma sobol_test_after (dir : Z) (a : arr3 R) (u_axis g t : R) :
  (0 <= dir < 3)%Z ->
  sobol_test dir (mkLocals (set3 a dir u_axis) g t) = Rleb (u_axis - g) t.
Proof.
  intros Hdir. unfold sobol_test. simpl.
  rewrite get3_set3_same by exact Hdir. reflexivity.
Qed.

(** What the loop of the source returns is a draw of the specification. *)
Lemma sobol_loop_sound (theta : R) (dir : Z) :
  (0 <= dir < 3)%Z ->
  forall (fuel : nat) (l l' : locals R) (e e' : E),
    sobol_test dir l = true ->
    sobol_loop fuel theta dir l e = Done (l', e') ->
    exists u_axis g t,
      sobol_draw theta e (u_axis, g, t) e' /\
      l' = mkLocals (set3 (u l) dir u_axis) g t.
Proof.
  intros Hdir fuel.
  induction fuel as [| fuel IH]; intros l l' e e' Htest Hrun.
  - simpl in Hrun. unfold sobol_test in Htest. simpl in Htest.
    rewrite Htest in Hrun. discriminate.
  - rewrite sobol_loop_unfold, Htest in Hrun.
    destruct (sobol_round theta e) as [[[u_axis g] t] e1] eqn:Hround.
    rewrite (sobol_body_round theta l e Hdir Hround) in Hrun.
    simpl in Hrun.
    destruct (Rleb (u_axis - g) t) eqn:Hcmp.
    + destruct (IH _ _ _ _
                  (eq_trans (sobol_test_after (u l) u_axis g t Hdir) Hcmp)
                  Hrun)
        as (u2 & g2 & t2 & Hdraw & Hl').
      exists u2, g2, t2. split.
      * eapply sobol_retry; [exact Hround | | exact Hdraw].
        apply Rleb_true. exact Hcmp.
      * rewrite Hl'. simpl. rewrite set3_set3_same. reflexivity.
    + rewrite sobol_loop_exit in Hrun
        by (rewrite sobol_test_after by exact Hdir; exact Hcmp).
      inversion Hrun; subst.
      exists u_axis, g, t. split; [| reflexivity].
      apply sobol_accept; [exact Hround |].
      apply Rleb_false. exact Hcmp.
Qed.

(** A draw of the specification is returned by the loop of the source as
    soon as the fuel covers its rounds. *)
Lemma sobol_loop_complete (theta : R) (dir : Z) :
  (0 <= dir < 3)%Z ->
  forall (e e' : E) (r : R * R * R),
    sobol_draw theta e r e' ->
    exists n : nat,
      forall (fuel : nat) (l : locals R),
        (n <= fuel)%nat ->
        sobol_test dir l = true ->
        sobol_loop fuel theta dir l e
        = Done (mkLocals (set3 (u l) dir (fst (fst r))) (snd (fst r)) (snd r),
                e').
Proof.
  intros Hdir e e' r Hdraw.
  induction Hdraw as [e e' u_axis g t Hround Hcmp
                     | e e1 e' u_axis g t r Hround Hcmp Hdraw IH].
  - exists 1%nat. intros fuel l Hfuel Htest.
    destruct fuel as [| fuel]; [lia |].
    rewrite sobol_loop_unfold, Htest.
    rewrite (sobol_body_round theta l e Hdir Hround). simpl.
    apply sobol_loop_exit.
    rewrite sobol_test_after by exact Hdir.
    apply Rleb_false. exact Hcmp.
  - destruct IH as [n IH]. exists (S n). intros fuel l Hfuel Htest.
    destruct fuel as [| fuel]; [lia |].
    rewrite sobol_loop_unfold, Htest.
    rewrite (sobol_body_round theta l e Hdir Hround). simpl.
    rewrite IH.
    + simpl. rewrite set3_set3_same. reflexivity.
    + lia.
    + rewrite sobol_test_after by exact Hdir.
      apply Rleb_true. exact Hcmp.
Qed.
End JuttnerLocalFrame.

Section JuttnerLocalFrameSpec.
Context {E : Type} {G : RandomEngine R E}.
Import InjectorMomentumJuttner.

Lemma spread_components (dir : Z) (a : arr3 R) (u_axis x1 x2 : R) :
  (0 <= dir < 3)%Z ->
  let v := spread dir (set3 a dir u_axis) x1 x2 in
  get3 v (Z.rem (dir + 1) 3)
  = (2 * u_axis * sqrt (x1 * (1 - x1)) * sin (2 * PI * x2))%R /\
  get3 v (Z.rem (dir + 2) 3)
  = (2 * u_axis * sqrt (x1 * (1 - x1)) * cos (2 * PI * x2))%R /\
  get3 v dir = (u_axis * (2 * x1 - 1))%R.
Proof.
  intros Hdir v. subst v. destruct a as [[a b] c].
  assert (dir = 0 \/ dir = 1 \/ dir = 2)%Z as [-> | [-> | ->]] by lia;
    repeat split; reflexivity.
Qed.

Lemma initial_sobol_test (dir : Z) :
  (0 <= dir < 3)%Z ->
  sobol_test dir (mkLocals (set3 (r0, r0, r0) dir r0) r0 r0) = true.
Proof.
  intros Hdir. rewrite sobol_test_after by exact Hdir.
  apply Rleb_true. simpl. lra.
Qed.

Lemma local_sample_sound (theta : R) (dir : Z) (fuel : nat) (e e' : E)
      (l : locals R) :
  (0 <= dir < 3)%Z ->
  local_sample fuel theta dir e = Done (l, e') ->
  exists u_axis g t e1,
    sobol_draw theta e (u_axis, g, t) e1 /\
    on_random_direction dir u_axis g e1 l e'.
Proof.
  intros Hdir Hrun. unfold local_sample, bind in Hrun.
  destruct (sobol_loop fuel theta dir
              (mkLocals (set3 (r0, r0, r0) dir r0) r0 r0) e)
    as [[l1 e1] | | |] eqn:Hloop; simpl in Hrun; try discriminate.
  destruct (sobol_loop_sound theta Hdir fuel _ e
              (initial_sobol_test Hdir) Hloop)
    as (u_axis & g & t & Hdraw & Hl1).
  exists u_axis, g, t, e1. split; [exact Hdraw |].
  unfold lift, ret in Hrun. simpl in Hrun.
  unfold on_random_direction.
  destruct (Random e1) as [x1 e2]; simpl in Hrun.
  destruct (Random e2) as [x2 e3]; simpl in Hrun.
  inversion Hrun; subst; clear Hrun.
  cbn [InjectorMomentumJuttner.u InjectorMomentumJuttner.gamma
         InjectorMomentumJuttner.x1 fst snd].
  match goal with
  | |- context [spread dir (set3 ?a dir u_axis) x1 x2] =>
      destruct (spread_components a u_axis x1 x2 Hdir) as (H1 & H2 & H3)
  end.
  repeat split; assumption.
Qed.

Lemma local_sample_complete (theta : R) (dir : Z) (e e1 : E)
      (u_axis g t : R) :
  (0 <= dir < 3)%Z ->
  sobol_draw theta e (u_axis, g, t) e1 ->
  exists n : nat,
    forall fuel : nat,
      (n <= fuel)%nat ->
      exists l e',
        local_sample fuel theta dir e = Done (l, e') /\
        on_random_direction dir u_axis g e1 l e'.
Proof.
  intros Hdir Hdraw.
  destruct (sobol_loop_complete Hdir Hdraw) as [n Hn].
  exists n. intros fuel Hfuel.
  unfold local_sample, bind.
  rewrite (Hn fuel _ Hfuel (initial_sobol_test Hdir)). simpl.
  unfold lift, ret, on_random_direction. simpl.
  destruct (Random e1) as [x1 e2]; simpl.
  destruct (Random e2) as [x2 e3]; simpl.
  eexists _, _. split; [reflexivity |].
  cbn [InjectorMomentumJuttner.u InjectorMomentumJuttner.gamma
         InjectorMomentumJuttner.x1 fst snd].
  match goal with
  | |- context [spread dir (set3 ?a dir u_axis) x1 x2] =>
      destruct (spread_components a u_axis x1 x2 Hdir) as (H1 & H2 & H3)
  end.
  repeat split; assumption.
Qed.
End JuttnerLocalFrameSpec.

(** C2. Over the real numbers, at a position where the temperature
    evaluator yields [theta >= 0.1] and the velocity evaluator [beta] with
    [|beta| < 1], and with the boost axis 0, 1 or 2: [getMomentum] of the
    Juttner sampler runs its local-frame stage and hands the result to the
    flip and the boost, without calling [amrex::Abort].  Whatever the
    local-frame stage returns comes from the rejection loop of the
    specification ([sobol_draw]: rounds [u_axis = -theta*ln(xi1*xi2*xi3)],
    [gamma = sqrt(1+u_axis^2)], [x1 = theta*ln(xi4)], repeated while
    [u_axis - gamma <= x1]) followed by the placement on a random direction
    ([on_random_direction]); and whenever the rejection loop of the
    specification accepts a round, the local-frame stage returns that
    result for every large enough fuel. *)
Theorem Juttner_local_frame_is_sobol :
  forall (E : Type) (G : RandomEngine R E)
         (s : InjectorMomentumJuttner.t R) (px py pz : R),
    let theta := InjectorMomentumJuttner.temperature s px py pz in
    let beta := velocity_at (InjectorMomentumJuttner.velocity s) px py pz in
    let dir := direction (InjectorMomentumJuttner.velocity s) in
    (1 / 10 <= theta)%R ->
    (Rabs beta < 1)%R ->
    (0 <= dir < 3)%Z ->
    (forall (fuel : nat) (e : E),
        InjectorMomentumJuttner.getMomentum fuel s px py pz e
        = obind (InjectorMomentumJuttner.local_sample fuel theta dir e)
            (fun r =>
               let l := fst r in
               let e1 := snd r in
               Done (XDim3_of_arr3
                       (lorentz_boost beta (InjectorMomentumJuttner.gamma l)
                          dir
                          (flip beta (InjectorMomentumJuttner.gamma l)
                                (fst (Random e1)) dir
                                (InjectorMomentumJuttner.u l))),
                     snd (Random e1)))) /\
    (forall (fuel : nat) (e e' : E) (l : InjectorMomentumJuttner.locals R),
        InjectorMomentumJuttner.local_sample fuel theta dir e = Done (l, e') ->
        exists u_axis g t e1,
          sobol_draw theta e (u_axis, g, t) e1 /\
          on_random_direction dir u_axis g e1 l e') /\
    (forall (e e1 : E) (u_axis g t : R),
        sobol_draw theta e (u_axis, g, t) e1 ->
        exists n : nat,
          forall fuel : nat,
            (n <= fuel)%nat ->
            exists l e',
              InjectorMomentumJuttner.local_sample fuel theta dir e
              = Done (l, e') /\
              on_random_direction dir u_axis g e1 l e').
Proof.
  intros E G s px py pz theta beta dir Htheta Hbeta Hdir.
  split; [| split].
  - intros fuel e.
    apply Juttner_getMomentum_checked.
    + apply Rltb_false. fold theta. simpl. lra.
    + fold beta.
      destruct (beta_out_of_range beta) eqn:Hb; [| reflexivity].
      apply beta_out_of_range_R in Hb. lra.
  - intros fuel e e' l Hrun.
    exact (local_sample_sound theta fuel e Hdir Hrun).
  - intros e e1 u_axis g t Hdraw.
    exact (local_sample_complete Hdir Hdraw).
Qed.

Lemma ln_quarter : (ln (1 / 4) < -1)%R.
Proof.
  replace (-1)%R with (- (1))%R by lra.
  rewrite <- (ln_exp (- (1))).
  apply ln_increasing; [lra |].
  rewrite exp_Ropp.
  pose proof exp_le_3 as H3. pose proof (exp_pos 1) as Hp.
  apply Rlt_le_trans with (/ 3)%R; [lra |].
  apply Rinv_le_contravar; assumption.
Qed.

Lemma speed_minus_gamma (a : R) : (0 <= a)%R -> (-1 <= a - sqrt (1 + a * a))%R.
Proof.
  intros Ha.
  assert (Hs : (sqrt (1 + a * a) <= 1 + a)%R).
  { rewrite <- (sqrt_square (1 + a)) by lra.
    apply sqrt_le_1_alt. nra. }
  lra.
Qed.

Lemma quarter_round_accepted :
  let u_axis := (- 1 * ln (1 / 4 * (1 / 4) * (1 / 4)))%R in
  sobol_draw (G := quarter_engine) 1%R 0%nat
    (u_axis, sqrt (1 + u_axis * u_axis), (1 * ln (1 / 4))%R) 4%nat.
Proof.
  intros u_axis. apply sobol_accept; [reflexivity |].
  assert (Hu : (0 <= u_axis)%R).
  { subst u_axis.
    assert (ln (1 / 4 * (1 / 4) * (1 / 4)) < ln 1)%R
      by (apply ln_increasing; lra).
    rewrite ln_1 in H. lra. }
  pose proof (speed_minus_gamma Hu) as Hg.
  pose proof ln_quarter as Hq. lra.
Qed.

Lemma Juttner_local_frame_is_sobol_witness :
  (1 / 10 <= 1)%R /\ (Rabs 0 < 1)%R /\ (0 <= 0 < 3)%Z /\
  exists n : nat,
    forall fuel : nat,
      (n <= fuel)%nat ->
      exists l e',
        InjectorMomentumJuttner.local_sample (G := quarter_engine)
          fuel 1%R 0 0%nat = Done (l, e') /\
        on_random_direction (G := quarter_engine) 0
          (- 1 * ln (1 / 4 * (1 / 4) * (1 / 4)))%R
          (sqrt (1 + (- 1 * ln (1 / 4 * (1 / 4) * (1 / 4)))
                     * (- 1 * ln (1 / 4 * (1 / 4) * (1 / 4)))))%R
          4%nat l e'.
Proof.
  assert (H1 : (1 / 10 <= 1)%R) by lra.
  assert (H2 : (Rabs 0 < 1)%R) by (rewrite Rabs_R0; lra).
  assert (H3 : (0 <= 0 < 3)%Z) by lia.
  split; [exact H1 | split; [exact H2 | split; [exact H3 |]]].
  destruct (@Juttner_local_frame_is_sobol nat quarter_engine warm_juttner
              0%R 0%R 0%R H1 H2 H3) as (_ & _ & Hc).
  exact (Hc 0%nat 4%nat _ _ _ quarter_round_accepted).
Defined.

(** ** The two branches of the flux kernel *)

Lemma ln_inverse (a : R) : (2 * ln (1 / a) = -2 * ln a)%R.
Proof.
  destruct (Rlt_dec 0 a) as [Hpos | Hneg].
  - replace (1 / a)%R with (/ a)%R by (unfold Rdiv; ring).
    rewrite ln_Rinv by exact Hpos. ring.
  - assert (Hq : ~ (0 < 1 / a)%R).
    { intros Hq. apply Hneg.
      destruct (Req_dec a 0) as [-> | Hnz].
      - unfold Rdiv in Hq. rewrite Rinv_0 in Hq. lra.
      - replace a with (/ (1 / a))%R by (field; exact Hnz).
        apply Rinv_0_lt_compat. exact Hq. }
    unfold ln.
    destruct (Rlt_dec 0 a); [contradiction |].
    destruct (Rlt_dec 0 (1 / a)); [contradiction |]. ring.
Qed.

Section FluxKernelSpec.
Context {E : Type} {G : RandomEngine R E}.

(** *** Small drift *)

Lemma low_drift_body_round (u_m u_th : R) (e : E) :
  forall u a e',
    low_drift_round u_m u_th e = ((u, a), e') ->
    low_drift_body (u_th / sqrt (1 - u_m / u_th))%R
                   ((u_m / u_th) / (2 * u_th * u_th))%R u_th e
    = Done ((u, Rltb a (low_drift_acceptance u_m u_th u)), e').
Proof.
  intros u a e' Hround. unfold low_drift_round in Hround.
  unfold low_drift_body, bind, lift, ret. simpl.
  destruct (Random e) as [d e1]; simpl.
  destruct (Random e1) as [a' e2]; simpl.
  inversion Hround; subst; clear Hround.
  unfold u_approx, low_drift_acceptance, prefactor.
  rewrite ln_inverse.
  replace (2 * u_th * u_th)%R with (2 * (u_th * u_th))%R by ring.
  match goal with
  | |- Done ((_, Rltb _ (exp ?p)), _) = Done ((_, Rltb _ (exp ?q)), _) =>
      replace p with q by ring
  end.
  reflexivity.
Qed.

Lemma low_drift_loop_sound (u_m u_th : R) :
  forall (fuel : nat) (e e' : E) (r : R),
    low_drift_loop fuel (u_th / sqrt (1 - u_m / u_th))%R
                   ((u_m / u_th) / (2 * u_th * u_th))%R u_th e
    = Done (r, e') ->
    low_drift_draw u_m u_th e r e'.
Proof.
  induction fuel as [| fuel IH]; intros e e' r Hrun; [discriminate |].
  simpl in Hrun. unfold bind in Hrun.
  destruct (low_drift_round u_m u_th e) as [[u a] e1] eqn:Hround.
  rewrite (low_drift_body_round u_m u_th e Hround) in Hrun.
  simpl in Hrun.
  destruct (Rltb a (low_drift_acceptance u_m u_th u)) eqn:Hacc.
  - inversion Hrun; subst.
    eapply low_drift_accept; [exact Hround |].
    apply Rltb_true. exact Hacc.
  - eapply low_drift_reject; [exact Hround | | apply IH; exact Hrun].
    apply Rltb_false. exact Hacc.
Qed.

Lemma low_drift_loop_complete (u_m u_th : R) :
  forall (e e' : E) (r : R),
    low_drift_draw u_m u_th e r e' ->
    exists n : nat,
      forall fuel : nat,
        (n <= fuel)%nat ->
        low_drift_loop fuel (u_th / sqrt (1 - u_m / u_th))%R
                       ((u_m / u_th) / (2 * u_th * u_th))%R u_th e
        = Done (r, e').
Proof.
  intros e e' r Hdraw.
  induction Hdraw as [e e' u a Hround Hacc
                     | e e1 e' u a r Hround Hacc Hdraw IH].
  - exists 1%nat. intros fuel Hfuel.
    destruct fuel as [| fuel]; [lia |].
    simpl. unfold bind.
    rewrite (low_drift_body_round u_m u_th e Hround). simpl.
    apply Rltb_true in Hacc. rewrite Hacc. reflexivity.
  - destruct IH as [n IH]. exists (S n). intros fuel Hfuel.
    destruct fuel as [| fuel]; [lia |].
    simpl. unfold bind.
    rewrite (low_drift_body_round u_m u_th e Hround). simpl.
    apply Rltb_false in Hacc. rewrite Hacc.
    apply IH. lia.
Qed.
End FluxKernelSpec.

Section FluxKernelHighDrift.
Context {E : Type} {G : RandomEngine R E}.

(** *** Dominant drift *)

Lemma positive_normal_loop_exit (fuel : nat) (c s u : R) (e : E) :
  ~ (u < 0)%R -> positive_normal_loop fuel c s u e = Done (u, e).
Proof.
  intros Hu. apply Rltb_false in Hu.
  destruct fuel; simpl; rewrite Hu; reflexivity.
Qed.

Lemma positive_normal_loop_step (fuel : nat) (c s u : R) (e : E) :
  (u < 0)%R ->
  positive_normal_loop (S fuel) c s u e
  = positive_normal_loop fuel c s (fst (RandomNormal c s e))
                         (snd (RandomNormal c s e)).
Proof.
  intros Hu. apply Rltb_true in Hu.
  simpl. rewrite Hu. reflexivity.
Qed.

Lemma positive_normal_loop_sound (c s : R) :
  forall (fuel : nat) (u : R) (e e' : E) (r : R),
    (u < 0)%R ->
    positive_normal_loop fuel c s u e = Done (r, e') ->
    positive_normal_draw c s e r e'.
Proof.
  induction fuel as [| fuel IH]; intros u e e' r Hu Hrun.
  - simpl in Hrun. apply Rltb_true in Hu. rewrite Hu in Hrun. discriminate.
  - rewrite positive_normal_loop_step in Hrun by exact Hu.
    destruct (RandomNormal c s e) as [u1 e1] eqn:Hdraw. simpl in Hrun.
    destruct (Rlt_dec u1 0) as [Hneg | Hpos].
    + eapply positive_normal_redraw;
        [exact Hdraw | exact Hneg | exact (IH _ _ _ _ Hneg Hrun)].
    + rewrite positive_normal_loop_exit in Hrun by exact Hpos.
      inversion Hrun; subst.
      apply positive_normal_keep; assumption.
Qed.

Lemma positive_normal_loop_complete (c s : R) :
  forall (e e' : E) (r : R),
    positive_normal_draw c s e r e' ->
    exists n : nat,
      forall (fuel : nat) (u : R),
        (n <= fuel)%nat ->
        (u < 0)%R ->
        positive_normal_loop fuel c s u e = Done (r, e').
Proof.
  intros e e' r Hdraw.
  induction Hdraw as [e e' u Hn Hpos | e e1 e' u r Hn Hneg Hdraw IH].
  - exists 1%nat. intros fuel u0 Hfuel Hu0.
    destruct fuel as [| fuel]; [lia |].
    rewrite positive_normal_loop_step by exact Hu0.
    rewrite Hn. simpl. apply positive_normal_loop_exit. exact Hpos.
  - destruct IH as [n IH]. exists (S n). intros fuel u0 Hfuel Hu0.
    destruct fuel as [| fuel]; [lia |].
    rewrite positive_normal_loop_step by exact Hu0.
    rewrite Hn. simpl. apply IH; [lia | exact Hneg].
Qed.

Lemma high_drift_acceptance_code (u_m u : R) :
  (u * (1 / u_m) * exp (1 - u * (1 / u_m)))%R = high_drift_acceptance u_m u.
Proof.
  unfold high_drift_acceptance, Rdiv. rewrite Rmult_1_l. reflexivity.
Qed.

Lemma high_drift_loop_step (fuel inner : nat) (u_m u_th : R) (e : E) :
  high_drift_loop (S fuel) inner (high_drift_centre u_m u_th) u_th
                  (1 / u_m)%R e
  = obind (positive_normal_loop inner (high_drift_centre u_m u_th) u_th
             (-1)%R e)
      (fun p =>
         if Rltb (fst (Random (snd p))) (high_drift_acceptance u_m (fst p))
         then Done (fst p, snd (Random (snd p)))
         else high_drift_loop fuel inner (high_drift_centre u_m u_th) u_th
                (1 / u_m)%R (snd (Random (snd p)))).
Proof.
  simpl. unfold bind, high_drift_body, bind, lift, ret. simpl.
  replace (- (1))%R with (-1)%R by lra.
  rewrite obind_assoc. apply obind_ext. intros [u e1]. simpl.
  rewrite high_drift_acceptance_code.
  destruct (Rltb (fst (Random e1)) (high_drift_acceptance u_m u));
    reflexivity.
Qed.

Lemma high_drift_loop_sound (u_m u_th : R) (inner : nat) :
  forall (fuel : nat) (e e' : E) (r : R),
    high_drift_loop fuel inner (high_drift_centre u_m u_th) u_th
                    (1 / u_m)%R e = Done (r, e') ->
    high_drift_draw u_m u_th e r e'.
Proof.
  induction fuel as [| fuel IH]; intros e e' r Hrun; [discriminate |].
  rewrite high_drift_loop_step in Hrun.
  destruct (positive_normal_loop inner (high_drift_centre u_m u_th) u_th
              (-1)%R e) as [[u e1] | msg k | |] eqn:Hpn;
    simpl in Hrun; try discriminate.
  assert (Hdraw : positive_normal_draw (high_drift_centre u_m u_th) u_th
                                       e u e1)
    by (eapply positive_normal_loop_sound; [| exact Hpn]; lra).
  destruct (Random e1) as [a e2] eqn:Hunif. simpl in Hrun.
  destruct (Rltb a (high_drift_acceptance u_m u)) eqn:Hacc.
  - inversion Hrun; subst.
    eapply high_drift_accept; [exact Hdraw | exact Hunif |].
    apply Rltb_true. exact Hacc.
  - eapply high_drift_reject;
      [exact Hdraw | exact Hunif | | exact (IH _ _ _ Hrun)].
    apply Rltb_false. exact Hacc.
Qed.

Lemma high_drift_loop_complete (u_m u_th : R) :
  forall (e e' : E) (r : R),
    high_drift_draw u_m u_th e r e' ->
    exists n : nat,
      forall fuel inner : nat,
        (n <= fuel)%nat ->
        (n <= inner)%nat ->
        high_drift_loop fuel inner (high_drift_centre u_m u_th) u_th
                        (1 / u_m)%R e = Done (r, e').
Proof.
  intros e e' r Hdraw.
  induction Hdraw as [e e1 e' u a Hpn Hunif Hacc
                     | e e1 e2 e' u a r Hpn Hunif Hacc Hdraw IH].
  - destruct (positive_normal_loop_complete Hpn) as [n Hn].
    exists (S n). intros fuel inner Hfuel Hinner.
    destruct fuel as [| fuel]; [lia |].
    rewrite high_drift_loop_step.
    rewrite (Hn inner (-1)%R) by (lia || lra). simpl.
    rewrite Hunif. simpl.
    apply Rltb_true in Hacc. rewrite Hacc. reflexivity.
  - destruct (positive_normal_loop_complete Hpn) as [n Hn].
    destruct IH as [m IH].
    exists (S (n + m)). intros fuel inner Hfuel Hinner.
    destruct fuel as [| fuel]; [lia |].
    rewrite high_drift_loop_step.
    rewrite (Hn inner (-1)%R) by (lia || lra). simpl.
    rewrite Hunif. simpl.
    apply Rltb_false in Hacc. rewrite Hacc.
    apply IH; lia.
Qed.
End FluxKernelHighDrift.

(** C1. Over the real numbers, with an engine whose uniform draws lie in
    [0,1), for every [u_m] and every [u_th > 0].
    - When [u_m < 0.6*u_th]: the draw [xi] of the proposal, one minus a
      uniform draw, excludes 0; whatever [generateGaussianFluxDist]
      returns is a draw of [low_drift_draw] (proposals
      [u_approx*sqrt(-2*ln(xi))] with [u_approx = u_th/sqrt(1-u_m/u_th)],
      each accepted when a fresh uniform draw is below
      [exp(-prefactor*(u-u_th)^2)], [prefactor = (u_m/u_th)/(2*u_th^2)],
      repeated until one is accepted), and every such draw is returned for
      every large enough fuel.
    - Otherwise: the same with [high_drift_draw] (proposals from the normal
      distribution centred at [u_m + u_th^2/u_m] with standard deviation
      [u_th], drawn again while negative, each accepted when a fresh
      uniform draw is below [(u/u_m)*exp(1-u/u_m)], repeated until one is
      accepted). *)
Theorem generateGaussianFluxDist_branches :
  forall (E : Type) (G : RandomEngine R E),
    (forall e : E, (0 <= fst (Random e) < 1)%R) ->
    forall u_m u_th : R,
      (0 < u_th)%R ->
      ((u_m < 6 / 10 * u_th)%R ->
       (forall e : E, (0 < 1 - fst (Random e) <= 1)%R) /\
       (forall (fuel : nat) (e e' : E) (r : R),
           generateGaussianFluxDist fuel u_m u_th e = Done (r, e') ->
           low_drift_draw u_m u_th e r e') /\
       (forall (e e' : E) (r : R),
           low_drift_draw u_m u_th e r e' ->
           exists n : nat,
             forall fuel : nat,
               (n <= fuel)%nat ->
               generateGaussianFluxDist fuel u_m u_th e = Done (r, e'))) /\
      (~ (u_m < 6 / 10 * u_th)%R ->
       (forall (fuel : nat) (e e' : E) (r : R),
           generateGaussianFluxDist fuel u_m u_th e = Done (r, e') ->
           high_drift_draw u_m u_th e r e') /\
       (forall (e e' : E) (r : R),
           high_drift_draw u_m u_th e r e' ->
           exists n : nat,
             forall fuel : nat,
               (n <= fuel)%nat ->
               generateGaussianFluxDist fuel u_m u_th e = Done (r, e'))).
Proof.
  intros E G Hunif u_m u_th Hth.
  assert (Hnz : Reqb u_th 0 = false) by (apply Reqb_false; lra).
  split.
  - intros Hlow.
    assert (Hbranch : forall fuel e,
               generateGaussianFluxDist fuel u_m u_th e
               = low_drift_loop fuel (u_th / sqrt (1 - u_m / u_th))%R
                   ((u_m / u_th) / (2 * u_th * u_th))%R u_th e).
    { intros fuel e. unfold generateGaussianFluxDist. simpl.
      rewrite Hnz. apply Rltb_true in Hlow. rewrite Hlow. reflexivity. }
    split; [| split].
    + intros e. specialize (Hunif e). lra.
    + intros fuel e e' r Hrun. rewrite Hbranch in Hrun.
      exact (low_drift_loop_sound u_m u_th fuel e Hrun).
    + intros e e' r Hdraw.
      destruct (low_drift_loop_complete Hdraw) as [n Hn].
      exists n. intros fuel Hfuel. rewrite Hbranch. apply Hn. exact Hfuel.
  - intros Hhigh.
    assert (Hbranch : forall fuel e,
               generateGaussianFluxDist fuel u_m u_th e
               = high_drift_loop fuel fuel (high_drift_centre u_m u_th) u_th
                   (1 / u_m)%R e).
    { intros fuel e. unfold generateGaussianFluxDist. simpl.
      rewrite Hnz. apply Rltb_false in Hhigh. rewrite Hhigh. reflexivity. }
    split.
    + intros fuel e e' r Hrun. rewrite Hbranch in Hrun.
      exact (high_drift_loop_sound u_m u_th fuel fuel e Hrun).
    + intros e e' r Hdraw.
      destruct (high_drift_loop_complete Hdraw) as [n Hn].
      exists n. intros fuel Hfuel. rewrite Hbranch.
      apply Hn; exact Hfuel.
Qed.

(** With no drift and unit spread the first proposal is always accepted:
    the acceptance probability is 1. *)
Lemma no_drift_round_accepted :
  low_drift_draw (G := steady_engine) 0%R 1%R 0%nat
    (u_approx 0 1 * sqrt (-2 * ln (1 - 1 / 2)))%R 2%nat.
Proof.
  eapply low_drift_accept; [reflexivity |].
  unfold low_drift_acceptance, prefactor.
  match goal with
  | |- (_ < exp ?p)%R => replace p with 0%R by (field; lra)
  end.
  rewrite exp_0. lra.
Qed.

(** With drift 1 and spread 1 the first normal variate of
    [steady_engine] gives the proposal 2, which is accepted against the
    uniform draw 1/2. *)
Lemma unit_drift_round_accepted :
  high_drift_draw (G := steady_engine) 1%R 1%R 0%nat
    (high_drift_centre 1 1 + 1 * INR 0)%R 2%nat.
Proof.
  eapply high_drift_accept with (e1 := 1%nat) (a := (1 / 2)%R).
  - apply positive_normal_keep; [reflexivity |].
    unfold high_drift_centre. simpl. lra.
  - reflexivity.
  - unfold high_drift_acceptance, high_drift_centre. simpl.
    replace ((1 + 1 * 1 / 1 + 1 * 0) / 1)%R with 2%R by field.
    replace (1 - 2)%R with (- (1))%R by ring.
    rewrite exp_Ropp.
    pose proof exp_le_3 as H3. pose proof (exp_pos 1) as Hp.
    assert (/ 3 <= / exp 1)%R by (apply Rinv_le_contravar; assumption).
    lra.
Qed.

Lemma generateGaussianFluxDist_branches_witness :
  (forall e : nat,
      (0 <= fst (Random (RandomEngine := steady_engine) e) < 1)%R) /\
  (0 < 1)%R /\ (0 < 6 / 10 * 1)%R /\ ~ (1 < 6 / 10 * 1)%R /\
  (exists n : nat,
      forall fuel : nat,
        (n <= fuel)%nat ->
        generateGaussianFluxDist (G := steady_engine) fuel 0%R 1%R 0%nat
        = Done ((u_approx 0 1 * sqrt (-2 * ln (1 - 1 / 2)))%R, 2%nat)) /\
  (exists n : nat,
      forall fuel : nat,
        (n <= fuel)%nat ->
        generateGaussianFluxDist (G := steady_engine) fuel 1%R 1%R 0%nat
        = Done ((high_drift_centre 1 1 + 1 * INR 0)%R, 2%nat)).
Proof.
  assert (Hunif : forall e : nat,
             (0 <= fst (Random (RandomEngine := steady_engine) e) < 1)%R)
    by (intros e; simpl; lra).
  assert (H1 : (0 < 1)%R) by lra.
  assert (H2 : (0 < 6 / 10 * 1)%R) by lra.
  assert (H3 : ~ (1 < 6 / 10 * 1)%R) by lra.
  split; [exact Hunif |].
  split; [exact H1 |]. split; [exact H2 |]. split; [exact H3 |].
  split.
  - destruct (@generateGaussianFluxDist_branches nat steady_engine Hunif
                0%R 1%R H1) as [Hlow _].
    destruct (Hlow H2) as (_ & _ & Hc).
    exact (Hc 0%nat 2%nat _ no_drift_round_accepted).
  - destruct (@generateGaussianFluxDist_branches nat steady_engine Hunif
                1%R 1%R H1) as [_ Hhigh].
    destruct (Hhigh H3) as (_ & Hc).
    exact (Hc 0%nat 2%nat _ unit_drift_round_accepted).
Defined.

(** ** The mean of the relativistic samplers on binary64

    The specification of the primitive floats ([Prim2SF] and the [SF64]
    operations) gives what [1/sqrt(1-beta*beta)*beta] is when [beta] is
    outside (-1,1): [beta*beta] rounds to a number that is at least 1 or
    overflows, so that [1-beta*beta] is a zero, negative or a NaN; its
    square root is a zero or a NaN, and the quotient an infinity or a
    NaN. *)

Unset Implicit Arguments.

Section Binary64.
Local Open Scope Z_scope.

Lemma digits2_pos_bounds (m : positive) :
  2 ^ (Zpos (digits2_pos m) - 1) <= Zpos m < 2 ^ Zpos (digits2_pos m).
Proof.
  induction m as [p IH | p IH |]; simpl digits2_pos.
  - rewrite Pos2Z.inj_succ.
    replace (Z.succ (Zpos (digits2_pos p)) - 1) with (Z.succ (Zpos (digits2_pos p) - 1)) by lia.
    rewrite 2 Z.pow_succ_r by lia. lia.
  - rewrite Pos2Z.inj_succ.
    replace (Z.succ (Zpos (digits2_pos p)) - 1) with (Z.succ (Zpos (digits2_pos p) - 1)) by lia.
    rewrite 2 Z.pow_succ_r by lia. lia.
  - simpl. lia.
Qed.

Lemma shr_1_m (mrs : shr_record) :
  0 <= shr_m mrs -> shr_m (shr_1 mrs) = shr_m mrs / 2.
Proof.
  destruct mrs as [m r s]. cbn [shr_m]. intros Hm.
  destruct m as [| [p | p |] | p]; cbn [shr_1 shr_m]; try lia.
  - reflexivity.
  - apply Z.div_unique with 1; lia.
  - apply Z.div_unique with 0; lia.
  - reflexivity.
Qed.

Lemma iter_shr_1_m (p : positive) :
  forall mrs : shr_record,
    0 <= shr_m mrs ->
    shr_m (SpecFloat.iter_pos shr_1 p mrs) = shr_m mrs / 2 ^ Zpos p.
Proof.
  induction p as [p IH | p IH |]; intros mrs Hm; simpl SpecFloat.iter_pos.
  - assert (Hpow : 0 < 2 ^ Zpos p) by (apply Z.pow_pos_nonneg; lia).
    assert (H1 : 0 <= shr_m (shr_1 mrs))
      by (rewrite shr_1_m by exact Hm; apply Z.div_pos; lia).
    assert (H2 : 0 <= shr_m (SpecFloat.iter_pos shr_1 p (shr_1 mrs)))
      by (rewrite IH by exact H1; apply Z.div_pos; lia).
    rewrite IH by exact H2. rewrite IH by exact H1. rewrite shr_1_m by exact Hm.
    rewrite 2 Z.div_div by lia.
    f_equal.
    replace (Zpos p~1) with (Zpos p + Zpos p + 1) by lia.
    rewrite 2 Z.pow_add_r by lia. rewrite Z.pow_1_r. ring.
  - assert (Hpow : 0 < 2 ^ Zpos p) by (apply Z.pow_pos_nonneg; lia).
    assert (H2 : 0 <= shr_m (SpecFloat.iter_pos shr_1 p mrs))
      by (rewrite IH by exact Hm; apply Z.div_pos; lia).
    rewrite IH by exact H2. rewrite IH by exact Hm.
    rewrite Z.div_div by lia.
    f_equal.
    replace (Zpos p~0) with (Zpos p + Zpos p) by lia.
    rewrite Z.pow_add_r by lia. reflexivity.
  - rewrite shr_1_m by exact Hm. reflexivity.
Qed.

(** Shifting a positive mantissa to its canonical exponent leaves a
    positive mantissa, and the exponent does not go down. *)
Lemma shr_fexp_positive (m e : Z) (l : location) :
  0 < m -> -1074 <= e ->
  let r := shr_fexp prec emax m e l in
  0 < shr_m (fst r) /\ e <= snd r /\ Zdigits2 m + e - 53 <= snd r.
Proof.
  intros Hm He r. subst r. unfold shr_fexp, shr.
  destruct m as [| m | m]; try lia. cbn [Zdigits2].
  pose proof (digits2_pos_bounds m) as [Hlo Hhi].
  set (d := Zpos (digits2_pos m)) in *.
  assert (Hm' : shr_m (shr_record_of_loc (Zpos m) l) = Zpos m)
    by (destruct l as [| []]; reflexivity).
  unfold SpecFloat.fexp, SpecFloat.emin.
  change (3 - emax - prec) with (-1074).
  change prec with 53.
  destruct (Z.max (d + e - 53) (-1074) - e) as [| n | n] eqn:Hn;
    cbn [fst snd].
  - rewrite Hm'. lia.
  - rewrite iter_shr_1_m by (rewrite Hm'; lia). rewrite Hm'.
    assert (Hnd : Zpos n <= d - 1) by lia.
    assert (Hle : 2 ^ Zpos n <= 2 ^ (d - 1))
      by (apply Z.pow_le_mono_r; lia).
    assert (Hpow : 0 < 2 ^ Zpos n) by (apply Z.pow_pos_nonneg; lia).
    repeat split; try lia.
    apply Z.div_str_pos. lia.
  - rewrite Hm'. lia.
Qed.

Lemma round_nearest_even_ge (m : Z) (l : location) :
  m <= round_nearest_even m l.
Proof.
  destruct l as [| []]; simpl; try lia.
  destruct (Z.even m); lia.
Qed.

(** Rounding a positive mantissa gives a finite number of the given sign,
    whose exponent is at least the canonical one, or overflows. *)
Lemma binary_round_aux_positive (sx : bool) (m e : Z) (l : location) :
  0 < m -> -1074 <= e ->
  let r := binary_round_aux prec emax sx m e l in
  (exists m' e', r = S754_finite sx m' e' /\ Zdigits2 m + e - 53 <= e')
  \/ SF_is_finite r = false.
Proof.
  intros Hm He r. subst r. unfold binary_round_aux.
  pose proof (shr_fexp_positive m e l Hm He) as H1. cbv zeta in H1.
  destruct (shr_fexp prec emax m e l) as [mrs' e'].
  cbn [fst snd] in H1. destruct H1 as (Hm' & He' & Hd').
  pose proof (round_nearest_even_ge (shr_m mrs') (loc_of_shr_record mrs'))
    as Hr.
  set (m1 := round_nearest_even (shr_m mrs') (loc_of_shr_record mrs')) in *.
  assert (Hm1 : 0 < m1) by lia.
  assert (He1 : -1074 <= e') by lia.
  pose proof (shr_fexp_positive m1 e' loc_Exact Hm1 He1) as H2.
  cbv zeta in H2.
  destruct (shr_fexp prec emax m1 e' loc_Exact) as [mrs'' e''].
  cbn [fst snd] in H2. destruct H2 as (Hm'' & He'' & _).
  destruct (shr_m mrs'') as [| m'' | m'']; try lia.
  destruct (e'' <=? emax - prec).
  - left. exists m'', e''. split; [reflexivity | lia].
  - right. reflexivity.
Qed.

(** The sign of a rounded result is the sign it was given. *)
Lemma binary_round_aux_sign (sx : bool) (m e : Z) (l : location) :
  match binary_round_aux prec emax sx m e l with
  | S754_zero s | S754_infinity s | S754_finite s _ _ => s = sx
  | S754_nan => True
  end.
Proof.
  unfold binary_round_aux.
  destruct (shr_fexp prec emax m e l) as [mrs' e'].
  destruct (shr_fexp prec emax _ e' loc_Exact) as [mrs'' e''].
  destruct (shr_m mrs''); [reflexivity | | exact I].
  destruct (e'' <=? emax - prec); reflexivity.
Qed.

Lemma shl_align_ge (m : positive) (e e' : Z) :
  Zpos m <= Zpos (fst (shl_align m e e')).
Proof.
  unfold shl_align. destruct (e' - e) as [| d | d]; cbn [fst]; try lia.
  apply (Pos.iter_invariant d positive xO (fun q => Zpos m <= Zpos q));
    intros; lia.
Qed.

Lemma valid_exponent (m : positive) (e : Z) :
  SpecFloat.valid_binary prec emax (S754_finite false m e) = true ->
  -52 <= e -> 2 ^ 52 <= Zpos m.
Proof.
  unfold SpecFloat.valid_binary, SpecFloat.bounded,
    SpecFloat.canonical_mantissa, SpecFloat.fexp, SpecFloat.emin.
  change (3 - emax - prec) with (-1074). change prec with 53.
  intros Hv He. apply andb_prop in Hv as [Hc _]. apply Z.eqb_eq in Hc.
  pose proof (digits2_pos_bounds m) as [Hlo _].
  assert (Hd : Zpos (digits2_pos m) = 53) by lia.
  rewrite Hd in Hlo. exact Hlo.
Qed.

Lemma range_exponent (s : bool) (m : positive) (e : Z) :
  SFleb (S754_finite s m e) SF_minus_one || SFleb SF_one (S754_finite s m e)
  = true ->
  -52 <= e.
Proof.
  unfold SFleb, SFcompare, SF_minus_one, SF_one. intros Hrange.
  destruct (Z.compare_spec e (-52)) as [Heq | Hlt | Hgt]; try lia.
  exfalso.
  assert (Hc : (-52 ?= e) = Gt) by (apply Z.compare_gt_iff; lia).
  assert (Hc' : (e ?= -52) = Lt) by (apply Z.compare_lt_iff; lia).
  destruct s; rewrite ?Hc, ?Hc' in Hrange; discriminate.
Qed.

Lemma case_infinity (s : bool) :
  SF_is_finite (SF_gamma_beta (S754_infinity s)) = false.
Proof. destruct s; vm_compute; reflexivity. Qed.

Lemma valid_mantissa (s : bool) (m : positive) (e : Z) :
  SpecFloat.valid_binary prec emax (S754_finite s m e) = true ->
  -52 <= e -> 2 ^ 52 <= Zpos m.
Proof. intros Hv He. apply (valid_exponent m e); assumption. Qed.

Lemma sub_one_not_positive (m : positive) (e : Z) :
  -52 <= e -> 2 ^ 52 <= Zpos m ->
  SF_not_positive (SF64sub SF_one (S754_finite false m e)).
Proof.
  intros He Hm. unfold SF64sub, SFsub, SF_one.
  rewrite Z.min_l by exact He.
  pose proof (shl_align_ge m e (-52)) as Hb.
  set (b := Zpos (fst (shl_align m e (-52)))) in *.
  change (fst (shl_align 4503599627370496 (-52) (-52)))
    with 4503599627370496%positive.
  unfold cond_Zopp.
  change (2 ^ 52) with 4503599627370496 in Hm.
  destruct (4503599627370496 - b) as [| d | d] eqn:Hd; try lia.
  - exact I.
  - unfold binary_normalize, binary_round.
    destruct (shl_align d (-52) _) as [mz ez].
    pose proof (binary_round_aux_sign true (Zpos mz) ez loc_Exact) as Hs.
    destruct (binary_round_aux prec emax true (Zpos mz) ez loc_Exact);
      simpl; auto.
Qed.

Lemma tail_not_finite (z : spec_float) (s : bool) (m : positive) (e : Z) :
  SF_not_positive z ->
  SF_is_finite
    (SF64mul (SF64div SF_one (SF64sqrt z)) (S754_finite s m e)) = false.
Proof.
  intros Hz. destruct z as [sz | sz | | sz mz ez]; simpl in Hz; subst;
    reflexivity.
Qed.

Lemma product_digits (m : positive) :
  2 ^ 52 <= Zpos m -> 105 <= Zpos (digits2_pos (m * m)).
Proof.
  intros Hm.
  pose proof (digits2_pos_bounds (m * m)) as [_ Hhi].
  rewrite Pos2Z.inj_mul in Hhi.
  assert (Hsq : 2 ^ 52 * 2 ^ 52 <= Zpos m * Zpos m)
    by (apply Z.mul_le_mono_nonneg; lia).
  rewrite <- Z.pow_add_r in Hsq by lia.
  assert (Hlt : 2 ^ (52 + 52) < 2 ^ Zpos (digits2_pos (m * m))) by lia.
  apply Z.pow_lt_mono_r_iff in Hlt; lia.
Qed.

Lemma SF_gamma_beta_not_finite (x : spec_float) :
  SpecFloat.valid_binary prec emax x = true ->
  SpecFloat.valid_binary prec emax (SF64mul x x) = true ->
  SFleb x SF_minus_one || SFleb SF_one x = true ->
  SF_is_finite (SF_gamma_beta x) = false.
Proof.
  intros Hvx Hvy Hrange.
  destruct x as [s | s | | s m e].
  - destruct s; discriminate.
  - apply case_infinity.
  - discriminate.
  - pose proof (range_exponent s m e Hrange) as He.
    pose proof (valid_mantissa s m e Hvx He) as Hm.
    pose proof (product_digits m Hm) as Hd.
    unfold SF_gamma_beta.
    unfold SF64mul at 2. unfold SF64mul in Hvy. unfold SFmul in Hvy |- *.
    rewrite xorb_nilpotent in Hvy |- *.
    destruct (binary_round_aux_positive false (Zpos (m * m)) (e + e)
                loc_Exact) as [(m' & e' & Hy & He') | Hy]; try lia.
    + rewrite Hy in Hvy |- *. cbn [Zdigits2] in He'.
      assert (He'' : -52 <= e') by lia.
      apply tail_not_finite. apply sub_one_not_positive; [exact He'' |].
      exact (valid_mantissa false m' e' Hvy He'').
    + pose proof (binary_round_aux_sign false (Zpos (m * m)) (e + e)
                    loc_Exact) as Hs.
      destruct (binary_round_aux prec emax false (Zpos (m * m)) (e + e)
                  loc_Exact) as [sy | sy | | sy my ey];
        try discriminate; subst; reflexivity.
Qed.

Lemma Prim2SF_is_finite (f : float) :
  SF_is_finite (Prim2SF f) = false -> is_finite f = false.
Proof.
  unfold Prim2SF, is_finite.
  destruct (PrimFloat.is_nan f); [reflexivity |].
  destruct (PrimFloat.is_zero f); [discriminate |].
  destruct (PrimFloat.is_infinity f); [reflexivity |].
  destruct (FloatOps.Z.frexp f) as [r ex].
  destruct (shr_fexp prec emax _ (ex - prec) loc_Exact) as [mrs e'].
  destruct (shr_m mrs); discriminate.
Qed.

Lemma Prim2SF_one : Prim2SF 1%float = SF_one.
Proof. vm_compute. reflexivity. Qed.

Lemma Prim2SF_minus_one : Prim2SF (- 1)%float = SF_minus_one.
Proof. vm_compute. reflexivity. Qed.

Lemma binary64_gamma_beta_not_finite (beta : float) :
  (PrimFloat.leb beta (- 1)%float || PrimFloat.leb 1%float beta) = true ->
  is_finite (1 / PrimFloat.sqrt (1 - beta * beta) * beta)%float = false.
Proof.
  intros Hrange. apply Prim2SF_is_finite.
  rewrite mul_spec, div_spec, sqrt_spec, sub_spec, mul_spec, Prim2SF_one.
  apply SF_gamma_beta_not_finite.
  - apply Prim2SF_valid.
  - rewrite <- mul_spec. apply Prim2SF_valid.
  - rewrite <- Prim2SF_one, <- Prim2SF_minus_one, <- 2 leb_spec.
    exact Hrange.
Qed.
End Binary64.

(** ** The mean query makes no check *)

(** C10. [getBulkMomentum] of the Boltzmann and of the Juttner sampler is a
    plain function of the position: it has no outcome other than its
    vector, and it never reads the temperature evaluator, so that two
    samplers that differ only in that evaluator have the same mean.  At a
    position where the velocity evaluator yields [beta] outside (-1,1),
    where [getMomentum] of both samplers calls [amrex::Abort], it still
    returns [1/sqrt(1-beta*beta)*beta] along the boost axis; on binary64
    that component is an infinity or a NaN. *)
Theorem getBulkMomentum_unchecked :
  (forall (T E : Type) (A : AmrexReal T) (G : RandomEngine T E)
          (v : GetVelocity T) (t t' : GetTemperature T) (px py pz : T)
          (fuel : nat) (e : E),
      let beta := velocity_at v px py pz in
      let gamma_beta := (r1 / rsqrt (r1 - beta * beta) * beta)%rt in
      let mB t := InjectorMomentumBoltzmann.getBulkMomentum
                    (InjectorMomentumBoltzmann.make t v) px py pz in
      let mJ t := InjectorMomentumJuttner.getBulkMomentum
                    (InjectorMomentumJuttner.make t v) px py pz in
      mB t = mB t' /\
      mJ t = mJ t' /\
      ((0 <= direction v < 3)%Z ->
       beta_out_of_range beta = true ->
       aborts (InjectorMomentumBoltzmann.getMomentum
                 (InjectorMomentumBoltzmann.make t v) px py pz e) = true /\
       aborts (InjectorMomentumJuttner.getMomentum fuel
                 (InjectorMomentumJuttner.make t v) px py pz e) = true /\
       component (mB t) (direction v) = gamma_beta /\
       component (mJ t) (direction v) = gamma_beta)) /\
  (forall (lm : libm) (v : GetVelocity float) (t : GetTemperature float)
          (px py pz : float),
      let beta := velocity_at v px py pz in
      (0 <= direction v < 3)%Z ->
      beta_out_of_range (A := binary64_real lm) beta = true ->
      is_finite
        (component
           (InjectorMomentumBoltzmann.getBulkMomentum (A := binary64_real lm)
              (InjectorMomentumBoltzmann.make t v) px py pz)
           (direction v)) = false /\
      is_finite
        (component
           (InjectorMomentumJuttner.getBulkMomentum (A := binary64_real lm)
              (InjectorMomentumJuttner.make t v) px py pz)
           (direction v)) = false).
Proof.
  split.
  - intros T E A G v t t' px py pz fuel e beta gamma_beta mB mJ.
    split; [reflexivity | split; [reflexivity |]].
    intros Hdir Hbeta.
    destruct (bulk_momentum_components v px py pz Hdir) as (Hc & _).
    repeat split.
    + apply (Boltzmann_getMomentum_aborts_iff
               (InjectorMomentumBoltzmann.make t v) px py pz e).
      right. exact Hbeta.
    + apply (Juttner_getMomentum_aborts_iff fuel
               (InjectorMomentumJuttner.make t v) px py pz e).
      right. exact Hbeta.
    + exact Hc.
    + exact Hc.
  - intros lm v t px py pz beta Hdir Hbeta.
    destruct (bulk_momentum_components (A := binary64_real lm) v px py pz
                Hdir) as (Hc & _).
    unfold InjectorMomentumBoltzmann.getBulkMomentum,
      InjectorMomentumJuttner.getBulkMomentum.
    cbn [InjectorMomentumBoltzmann.velocity InjectorMomentumJuttner.velocity].
    rewrite Hc. fold beta.
    split; apply binary64_gamma_beta_not_finite; exact Hbeta.
Qed.

Lemma getBulkMomentum_unchecked_witness :
  (0 <= direction luminal_velocity < 3)%Z /\
  beta_out_of_range (velocity_at luminal_velocity 0%R 0%R 0%R) = true /\
  aborts (InjectorMomentumBoltzmann.getMomentum (G := steady_engine)
            (InjectorMomentumBoltzmann.make (fun _ _ _ => 1%R)
                                            luminal_velocity)
            0%R 0%R 0%R 0%nat) = true /\
  component
    (InjectorMomentumBoltzmann.getBulkMomentum
       (InjectorMomentumBoltzmann.make (fun _ _ _ => 1%R) luminal_velocity)
       0%R 0%R 0%R) 0
  = (1 / sqrt (1 - 1 * 1) * 1)%R.
Proof.
  assert (Hdir : (0 <= direction luminal_velocity < 3)%Z) by (simpl; lia).
  assert (Hbeta : beta_out_of_range
                    (velocity_at luminal_velocity 0%R 0%R 0%R) = true)
    by (apply beta_out_of_range_R; simpl; rewrite Rabs_R1; lra).
  split; [exact Hdir | split; [exact Hbeta |]].
  destruct getBulkMomentum_unchecked as [Hgen _].
  destruct (Hgen R nat R_real steady_engine luminal_velocity
              (fun _ _ _ => 1%R) (fun _ _ _ => 1%R) 0%R 0%R 0%R 0%nat 0%nat)
    as (_ & _ & Hrun).
  destruct (Hrun Hdir Hbeta) as (Ha & _ & Hc & _).
  split; [exact Ha | exact Hc].
Defined.

(** On binary64: [beta = 1] gives an infinite mean, [beta = 2] a NaN. *)
Example getBulkMomentum_binary64_luminal :
  forall lm : libm,
    component
      (InjectorMomentumBoltzmann.getBulkMomentum (A := binary64_real lm)
         (InjectorMomentumBoltzmann.make
            (fun _ _ _ => 1%float) (mkGetVelocity (fun _ _ _ => 1%float) 0))
         0%float 0%float 0%float) 0
    = infinity /\
    PrimFloat.is_nan
      (component
         (InjectorMomentumJuttner.getBulkMomentum (A := binary64_real lm)
            (InjectorMomentumJuttner.make
               (fun _ _ _ => 1%float)
               (mkGetVelocity (fun _ _ _ => 2%float) 0))
            0%float 0%float 0%float) 0)
    = true.
Proof. intros lm. split; vm_compute; reflexivity. Qed.

(** ** Runs of the closed-form samplers on binary64 *)

(** A uniform sampler of zero width returns its bounds, from both
    operations. *)
Example Uniform_zero_width_binary64 :
  forall lm : libm,
    let s := InjectorMomentumUniform.make (A := binary64_real lm)
               1%float 2%float 3%float 1%float 2%float 3%float in
    InjectorMomentumUniform.getMomentum (A := binary64_real lm)
      (G := replay_engine (A := binary64_real lm)
              (fun _ => 0.5%float) (fun _ => 0%float))
      s 0%float 0%float 0%float 0%nat
    = Done (mkXDim3 1%float 2%float 3%float, 3%nat) /\
    InjectorMomentumUniform.getBulkMomentum s 0%float 0%float 0%float
    = mkXDim3 1%float 2%float 3%float.
Proof. intros lm. split; vm_compute; reflexivity. Qed.

(** Radial expansion with [u_over_r = 2] at (3,0,4). *)
Example RadialExpansion_binary64 :
  forall lm : libm,
    let s := InjectorMomentumRadialExpansion.make 2%float in
    InjectorMomentumRadialExpansion.getMomentum (A := binary64_real lm)
      (E := nat) s 3%float 0%float 4%float 0%nat
    = Done (mkXDim3 6%float 0%float 8%float, 0%nat) /\
    InjectorMomentumRadialExpansion.getBulkMomentum (A := binary64_real lm)
      s 3%float 0%float 4%float
    = mkXDim3 6%float 0%float 8%float.
Proof. intros lm. split; vm_compute; reflexivity. Qed.

(** The selector built for a constant momentum hands it back. *)
Example InjectorMomentum_constant_binary64 :
  forall lm : libm,
    InjectorMomentum.getBulkMomentum (A := binary64_real lm)
      (InjectorMomentum.make_constant 1%float 2%float 3%float)
      0%float 0%float 0%float
    = Done (mkXDim3 1%float 2%float 3%float).
Proof. intros lm. reflexivity. Qed.

(* ================================================================== *)
(** * Further properties of the samplers *)

(** ** The uniform sampler *)

Lemma scaled_draw_within (lo hi r : R) :
  (lo <= hi)%R -> (0 <= r < 1)%R ->
  (lo <= lo + r * (hi - lo) <= hi)%R.
Proof. intros Hb Hr. split; nra. Qed.

(** X1. Over the real numbers, with an engine whose uniform draws lie in
    [0,1) and bounds with [min <= max] on every axis: [getMomentum] of the
    uniform sampler makes exactly three draws and returns a momentum whose
    three components lie between their bounds; [getBulkMomentum] returns
    the midpoints, which lie between the bounds too. *)
Theorem Uniform_sample_within_bounds :
  forall (E : Type) (G : RandomEngine R E),
    (forall e : E, (0 <= fst (Random e) < 1)%R) ->
    forall (xmin ymin zmin xmax ymax zmax px py pz : R) (e : E),
      (xmin <= xmax)%R -> (ymin <= ymax)%R -> (zmin <= zmax)%R ->
      let s := InjectorMomentumUniform.make xmin ymin zmin xmax ymax zmax in
      let m := InjectorMomentumUniform.getBulkMomentum s px py pz in
      (exists v : XDim3 R,
          InjectorMomentumUniform.getMomentum s px py pz e
          = Done (v, snd (Random (snd (Random (snd (Random e)))))) /\
          (xmin <= x v <= xmax)%R /\
          (ymin <= y v <= ymax)%R /\
          (zmin <= z v <= zmax)%R) /\
      x m = ((xmin + xmax) / 2)%R /\
      y m = ((ymin + ymax) / 2)%R /\
      z m = ((zmin + zmax) / 2)%R /\
      (xmin <= x m <= xmax)%R /\
      (ymin <= y m <= ymax)%R /\
      (zmin <= z m <= zmax)%R.
Proof.
  intros E G Hunif xmin ymin zmin xmax ymax zmax px py pz e Hx Hy Hz s m.
  split.
  - eexists. split; [reflexivity |].
    cbn [x y z InjectorMomentumUniform.m_ux_min
           InjectorMomentumUniform.m_uy_min InjectorMomentumUniform.m_uz_min
           InjectorMomentumUniform.m_Dux InjectorMomentumUniform.m_Duy
           InjectorMomentumUniform.m_Duz s InjectorMomentumUniform.make
           fst snd].
    repeat split;
      apply scaled_draw_within; try assumption; apply Hunif.
  - subst m s. simpl. repeat split; lra.
Qed.

Lemma Uniform_sample_within_bounds_witness :
  (forall e : nat, (0 <= fst (Random (RandomEngine := steady_engine) e) < 1)%R)
  /\ (1 <= 2)%R /\ (0 <= 0)%R /\ (-1 <= 3)%R /\
  exists v : XDim3 R,
    InjectorMomentumUniform.getMomentum (G := steady_engine)
      (InjectorMomentumUniform.make 1%R 0%R (-1)%R 2%R 0%R 3%R)
      0%R 0%R 0%R 0%nat = Done (v, 3%nat) /\
    (1 <= x v <= 2)%R /\ (0 <= y v <= 0)%R /\ (-1 <= z v <= 3)%R.
Proof.
  assert (Hunif : forall e : nat,
             (0 <= fst (Random (RandomEngine := steady_engine) e) < 1)%R)
    by (intros e; simpl; lra).
  assert (H1 : (1 <= 2)%R) by lra.
  assert (H2 : (0 <= 0)%R) by lra.
  assert (H3 : (-1 <= 3)%R) by lra.
  split; [exact Hunif |].
  split; [exact H1 |]. split; [exact H2 |]. split; [exact H3 |].
  destruct (Uniform_sample_within_bounds nat steady_engine Hunif
              1%R 0%R (-1)%R 2%R 0%R 3%R 0%R 0%R 0%R 0%nat H1 H2 H3)
    as [Hs _].
  exact Hs.
Defined.

(** X2. Over the real numbers, a uniform sampler whose bounds coincide on
    every axis returns exactly those bounds from [getMomentum], whatever
    the engine draws, and from [getBulkMomentum]. *)
Theorem Uniform_zero_width :
  forall (E : Type) (G : RandomEngine R E) (a b c px py pz : R) (e : E),
    let s := InjectorMomentumUniform.make a b c a b c in
    (exists e' : E,
        InjectorMomentumUniform.getMomentum s px py pz e
        = Done (mkXDim3 a b c, e')) /\
    InjectorMomentumUniform.getBulkMomentum s px py pz = mkXDim3 a b c.
Proof.
  intros E G a b c px py pz e s. split.
  - eexists. unfold InjectorMomentumUniform.getMomentum, bind, lift, ret.
    simpl. f_equal. f_equal. f_equal; ring.
  - subst s. unfold InjectorMomentumUniform.getBulkMomentum. simpl.
    f_equal; field.
Qed.

(** ** Selectors built by the constructors *)

Lemma well_tagged_mean {T : Type} {A : AmrexReal T}
      (s : InjectorMomentum.t T) (px py pz : T) :
  well_tagged s = true ->
  exists v : XDim3 T, InjectorMomentum.getBulkMomentum s px py pz = Done v.
Proof.
  destruct s as [type obj]. unfold well_tagged. simpl. intros Htag.
  apply Z.eqb_eq in Htag. subst type.
  destruct obj; eexists; reflexivity.
Qed.

(** X3. Every selector returned by one of the eight constructors stores
    the tag that goes with its member; the constructor for the flux kind
    returns a selector exactly when the constructor of the member does.
    On a selector with that invariant [getBulkMomentum] returns a vector:
    it neither reports an unknown type nor reads a member that is not
    stored. *)
Theorem constructed_selector_is_well_tagged :
  forall (T : Type) (A : AmrexReal T),
    (forall a b c : T,
        well_tagged (InjectorMomentum.make_constant a b c) = true) /\
    (forall f g h : T -> T -> T -> T,
        well_tagged (InjectorMomentum.make_parser f g h) = true) /\
    (forall a b c ta tb tc : T,
        well_tagged (InjectorMomentum.make_gaussian a b c ta tb tc) = true) /\
    (forall a b c d f g : T,
        well_tagged (InjectorMomentum.make_uniform a b c d f g) = true) /\
    (forall (t : GetTemperature T) (v : GetVelocity T),
        well_tagged (InjectorMomentum.make_boltzmann t v) = true /\
        well_tagged (InjectorMomentum.make_juttner t v) = true) /\
    (forall k : T,
        well_tagged (InjectorMomentum.make_radial_expansion k) = true) /\
    (forall (a b c ta tb tc : T) (axis dirn : Z),
        (forall s,
            InjectorMomentum.make_gaussianflux a b c ta tb tc axis dirn
            = Done s ->
            well_tagged s = true) /\
        (returned (InjectorMomentum.make_gaussianflux
                     a b c ta tb tc axis dirn) = None
         <-> returned (InjectorMomentumGaussianFlux.make
                         a b c ta tb tc axis dirn) = None)) /\
    (forall (s : InjectorMomentum.t T) (px py pz : T),
        well_tagged s = true ->
        exists v : XDim3 T,
          InjectorMomentum.getBulkMomentum s px py pz = Done v).
Proof.
  intros T A.
  repeat match goal with
         | |- _ /\ _ => split
         end; try (intros; reflexivity).
  - intros t v. split; reflexivity.
  - intros a b c ta tb tc axis dirn. split.
    + intros s Hs. unfold InjectorMomentum.make_gaussianflux in Hs.
      destruct (InjectorMomentumGaussianFlux.make a b c ta tb tc axis dirn)
        as [o | | |]; simpl in Hs; try discriminate.
      inversion Hs; subst. reflexivity.
    + unfold InjectorMomentum.make_gaussianflux.
      destruct (InjectorMomentumGaussianFlux.make a b c ta tb tc axis dirn)
        as [o | | |]; simpl; split; intros H; try discriminate; reflexivity.
  - intros s px py pz Htag. exact (well_tagged_mean s px py pz Htag).
Qed.

Lemma constructed_selector_is_well_tagged_witness :
  well_tagged (InjectorMomentum.make_uniform 0%R 0%R 0%R 1%R 1%R 1%R) = true
  /\ exists v : XDim3 R,
      InjectorMomentum.getBulkMomentum
        (InjectorMomentum.make_uniform 0%R 0%R 0%R 1%R 1%R 1%R)
        0%R 0%R 0%R = Done v.
Proof.
  destruct (constructed_selector_is_well_tagged R R_real)
    as (_ & _ & _ & Hu & _ & _ & _ & Hm).
  split; [apply Hu |].
  apply Hm. apply Hu.
Defined.

(** X4. For the three kinds that make no draw (constant, radial expansion,
    parser), a selector built by the constructor returns from
    [getMomentum] the very vector [getBulkMomentum] returns, and hands the
    engine back in the state it received it in. *)
Theorem drawless_kinds_sample_is_mean :
  forall (T E : Type) (A : AmrexReal T) (G : RandomEngine T E)
         (fuel : nat) (px py pz : T) (e : E) (s : InjectorMomentum.t T),
    (exists a b c, s = InjectorMomentum.make_constant a b c) \/
    (exists k, s = InjectorMomentum.make_radial_expansion k) \/
    (exists f g h, s = InjectorMomentum.make_parser f g h) ->
    exists v : XDim3 T,
      InjectorMomentum.getBulkMomentum s px py pz = Done v /\
      InjectorMomentum.getMomentum fuel s px py pz e = Done (v, e).
Proof.
  intros T E A G fuel px py pz e s
         [(a & b & c & ->) | [(k & ->) | (f & g & h & ->)]];
    eexists; split; reflexivity.
Qed.

Lemma drawless_kinds_sample_is_mean_witness :
  exists v : XDim3 R,
    InjectorMomentum.getBulkMomentum
      (InjectorMomentum.make_radial_expansion 2%R) 3%R 0%R 4%R = Done v /\
    InjectorMomentum.getMomentum (G := steady_engine) 0
      (InjectorMomentum.make_radial_expansion 2%R) 3%R 0%R 4%R 5%nat
    = Done (v, 5%nat).
Proof.
  apply (drawless_kinds_sample_is_mean R nat R_real steady_engine 0%nat
           3%R 0%R 4%R 5%nat (InjectorMomentum.make_radial_expansion 2%R)).
  right. left. exists 2%R. reflexivity.
Defined.

(** ** What the flux kernel never does *)

Section KernelOutcome.
Context {T E : Type} {A : AmrexReal T} {G : RandomEngine T E}.

Lemma low_drift_loop_outcome (a p u_th : T) :
  forall (fuel : nat) (e : E), value_or_fuel (low_drift_loop fuel a p u_th e).
Proof.
  induction fuel as [| fuel IH]; intros e; [right; reflexivity |].
  simpl. unfold bind, low_drift_body, bind, lift, ret. simpl.
  destruct (rlt _ _); [left; eexists; reflexivity | apply IH].
Qed.

Lemma positive_normal_loop_outcome (c s : T) :
  forall (fuel : nat) (u : T) (e : E),
    value_or_fuel (positive_normal_loop fuel c s u e).
Proof.
  induction fuel as [| fuel IH]; intros u e; simpl;
    destruct (rlt u r0);
    try (left; eexists; reflexivity); [right; reflexivity |].
  unfold bind, lift. simpl. apply IH.
Qed.

Lemma high_drift_loop_outcome (inner : nat) (c s i : T) :
  forall (fuel : nat) (e : E),
    value_or_fuel (high_drift_loop fuel inner c s i e).
Proof.
  induction fuel as [| fuel IH]; intros e; [right; reflexivity |].
  simpl. unfold bind at 1. unfold high_drift_body, bind at 1.
  destruct (positive_normal_loop_outcome c s inner (rneg r1) e)
    as [[[u e1] Hpn] | Hpn]; rewrite Hpn; simpl;
    [| right; reflexivity].
  unfold bind, lift, ret. simpl.
  destruct (rlt _ _); [left; eexists; reflexivity | apply IH].
Qed.
End KernelOutcome.

(** X5. In every arithmetic and for all parameters, [generateGaussianFluxDist]
    and [getMomentum] of the flux sampler never call [amrex::Abort]: each
    run ends with a value, unless the fuel cuts a rejection loop short.
    The flux sampler rejects its parameters at construction only. *)
Theorem flux_sampling_never_aborts :
  forall (T E : Type) (A : AmrexReal T) (G : RandomEngine T E)
         (fuel : nat) (e : E),
    (forall u_m u_th : T,
        value_or_fuel (generateGaussianFluxDist fuel u_m u_th e)) /\
    (forall (s : InjectorMomentumGaussianFlux.t T) (px py pz : T),
        value_or_fuel
          (InjectorMomentumGaussianFlux.getMomentum fuel s px py pz e)).
Proof.
  intros T E A G fuel e.
  assert (Hk : forall (u_m u_th : T) (e0 : E),
             value_or_fuel (generateGaussianFluxDist fuel u_m u_th e0)).
  { intros u_m u_th e0. unfold generateGaussianFluxDist.
    destruct (req u_th r0); [left; eexists; reflexivity |].
    destruct (rlt u_m _);
      [apply low_drift_loop_outcome | apply high_drift_loop_outcome]. }
  split; [intros u_m u_th; apply Hk |].
  intros s px py pz. unfold InjectorMomentumGaussianFlux.getMomentum.
  destruct (InjectorMomentumGaussianFlux.flux_axis_parameters s)
    as [u_m u_th].
  unfold bind at 1.
  destruct (Hk u_m u_th e) as [[[u e1] Hrun] | Hrun]; rewrite Hrun; simpl;
    [| right; reflexivity].
  left.
  destruct (InjectorMomentumGaussianFlux.m_flux_normal_axis s =? 0)%Z,
    (InjectorMomentumGaussianFlux.m_flux_normal_axis s =? 1)%Z,
    (InjectorMomentumGaussianFlux.m_flux_normal_axis s =? 2)%Z;
    unfold bind, ret, lift; simpl; eexists; reflexivity.
Qed.

(** ** The sign of a flux sample *)

Section FluxSign.
Context {E : Type} {G : RandomEngine R E}.

Lemma low_drift_draw_nonneg (u_m u_th : R) :
  (0 < u_th)%R ->
  forall (e e' : E) (r : R),
    low_drift_draw u_m u_th e r e' -> (0 <= r)%R.
Proof.
  intros Hth e e' r Hdraw.
  induction Hdraw as [e e' u a Hround Hacc
                     | e e1 e' u a r Hround Hacc Hdraw IH];
    [| exact IH].
  unfold low_drift_round in Hround.
  destruct (Random e) as [d e1]. destruct (Random e1) as [a' e2].
  inversion Hround; subst.
  apply Rmult_le_pos; [| apply sqrt_pos].
  unfold u_approx.
  destruct (Req_dec (sqrt (1 - u_m / u_th)) 0) as [Hz | Hnz].
  - rewrite Hz. unfold Rdiv. rewrite Rinv_0. lra.
  - pose proof (sqrt_pos (1 - u_m / u_th)) as Hs.
    apply Rlt_le. apply Rdiv_lt_0_compat; lra.
Qed.

Lemma positive_normal_draw_nonneg (c s : R) :
  forall (e e' : E) (r : R),
    positive_normal_draw c s e r e' -> (0 <= r)%R.
Proof.
  intros e e' r Hdraw.
  induction Hdraw as [e e' u Hn Hpos | e e1 e' u r Hn Hneg Hdraw IH];
    [lra | exact IH].
Qed.

Lemma high_drift_draw_nonneg (u_m u_th : R) :
  forall (e e' : E) (r : R),
    high_drift_draw u_m u_th e r e' -> (0 <= r)%R.
Proof.
  intros e e' r Hdraw.
  induction Hdraw as [e e1 e' u a Hpn Hunif Hacc
                     | e e1 e2 e' u a r Hpn Hunif Hacc Hdraw IH];
    [exact (positive_normal_draw_nonneg _ _ _ _ _ Hpn) | exact IH].
Qed.

(** With a central value that is not negative the kernel never returns a
    negative value, whatever the spread. *)
Lemma generateGaussianFluxDist_nonneg (fuel : nat) (u_m u_th : R) (e e' : E)
      (r : R) :
  (0 <= u_m)%R ->
  generateGaussianFluxDist fuel u_m u_th e = Done (r, e') ->
  (0 <= r)%R.
Proof.
  intros Hm Hrun. unfold generateGaussianFluxDist in Hrun. simpl in Hrun.
  destruct (Reqb u_th 0) eqn:Hz.
  - inversion Hrun; subst. exact Hm.
  - destruct (Rltb u_m (6 / 10 * u_th)) eqn:Hlow.
    + apply Rltb_true in Hlow.
      eapply (low_drift_draw_nonneg u_m u_th); [lra |].
      exact (low_drift_loop_sound u_m u_th fuel e Hrun).
    + apply (high_drift_draw_nonneg u_m u_th e e' r).
      exact (high_drift_loop_sound u_m u_th fuel fuel e Hrun).
Qed.
End FluxSign.

(** X6. Over the real numbers.  For a flux sampler that its constructor
    returned (so that the central momentum along the flux axis is not
    negative), with the flux axis 0, 1 or 2 and whatever the spreads:
    every sample has an on-axis component of the sign of
    [flux_direction], not positive when [flux_direction] is negative and
    not negative otherwise. *)
Theorem GaussianFlux_sample_sign :
  forall (E : Type) (G : RandomEngine R E)
         (a b c ta tb tc : R) (axis dirn : Z)
         (s : InjectorMomentumGaussianFlux.t R),
    (0 <= axis < 3)%Z ->
    InjectorMomentumGaussianFlux.make a b c ta tb tc axis dirn = Done s ->
    forall (fuel : nat) (px py pz : R) (e e' : E) (v : XDim3 R),
      InjectorMomentumGaussianFlux.getMomentum fuel s px py pz e
      = Done (v, e') ->
      if (dirn <? 0)%Z then (component v axis <= 0)%R
      else (0 <= component v axis)%R.
Proof.
  intros E G a b c ta tb tc axis dirn s Hax Hmake fuel px py pz e e' v Hrun.
  unfold InjectorMomentumGaussianFlux.make,
    WARPX_ALWAYS_ASSERT_WITH_MESSAGE in Hmake.
  set (s0 := InjectorMomentumGaussianFlux.Build a b c ta tb tc axis dirn)
    in Hmake.
  destruct (InjectorMomentumGaussianFlux.raise_error s0) eqn:Hraise;
    simpl in Hmake; [discriminate |].
  inversion Hmake; subst s; clear Hmake.
  assert (Hum : (0 <= fst (InjectorMomentumGaussianFlux.flux_axis_parameters
                             s0))%R).
  { unfold InjectorMomentumGaussianFlux.raise_error in Hraise.
    unfold InjectorMomentumGaussianFlux.flux_axis_parameters.
    subst s0. simpl in Hraise |- *.
    assert (axis = 0 \/ axis = 1 \/ axis = 2)%Z as [-> | [-> | ->]] by lia;
      simpl in Hraise |- *;
      match type of Hraise with
      | context [Rltb ?q 0] =>
          destruct (Rltb q 0) eqn:Hq; [discriminate |];
          apply Rltb_false in Hq; lra
      end. }
  destruct (@getMomentum_on_axis R E R_real G fuel s0 px py pz e Hax v e'
              Hrun) as (u & e1 & Hk & Hc).
  pose proof (generateGaussianFluxDist_nonneg fuel _ _ e e1 u Hum Hk) as Hu.
  change (InjectorMomentumGaussianFlux.m_flux_normal_axis s0) with axis in Hc.
  change (InjectorMomentumGaussianFlux.m_flux_direction s0) with dirn in Hc.
  rewrite Hc. destruct (dirn <? 0)%Z; simpl; lra.
Qed.

Lemma GaussianFlux_sample_sign_witness :
  (0 <= 0 < 3)%Z /\
  InjectorMomentumGaussianFlux.make 2%R 0%R 0%R 0%R 1%R 1%R 0 (-1)
  = Done backward_flux_sampler /\
  (component (mkXDim3 (- (2))%R (0 + 1 * INR 0)%R (0 + 1 * INR 1)%R) 0
   <= 0)%R.
Proof.
  assert (Hax : (0 <= 0 < 3)%Z) by lia.
  assert (Hmake : InjectorMomentumGaussianFlux.make
                    2%R 0%R 0%R 0%R 1%R 1%R 0 (-1)
                  = Done backward_flux_sampler).
  { unfold InjectorMomentumGaussianFlux.make,
      InjectorMomentumGaussianFlux.raise_error,
      WARPX_ALWAYS_ASSERT_WITH_MESSAGE. simpl.
    replace (Rltb 2 0) with false; [reflexivity |].
    symmetry. apply Rltb_false. lra. }
  split; [exact Hax | split; [exact Hmake |]].
  apply (GaussianFlux_sample_sign nat steady_engine
           2%R 0%R 0%R 0%R 1%R 1%R 0%Z (-1)%Z backward_flux_sampler
           Hax Hmake 0%nat 0%R 0%R 0%R 0%nat 2%nat).
  unfold InjectorMomentumGaussianFlux.getMomentum, bind. simpl.
  rewrite generateGaussianFluxDist_zero_spread_R. reflexivity.
Defined.

(** ** The acceptance tests of the flux kernel *)




(** X8. Over the real numbers, with an engine whose uniform draws lie in
    [0,1): without drift ([u_m = 0]) and with a spread [u_th > 0], the
    common case the source mentions, the first proposal is always
    accepted.  The kernel makes exactly two draws and returns
    [u_th*sqrt(-2*ln(1-d))], [d] being the first of them. *)
Theorem generateGaussianFluxDist_no_drift :
  forall (E : Type) (G : RandomEngine R E),
    (forall e : E, (0 <= fst (Random e) < 1)%R) ->
    forall (fuel : nat) (u_th : R) (e : E),
      (0 < u_th)%R ->
      generateGaussianFluxDist (S fuel) 0%R u_th e
      = Done ((u_th * sqrt (-2 * ln (1 - fst (Random e))))%R,
              snd (Random (snd (Random e)))).
Proof.
  intros E G Hunif fuel u_th e Hth.
  assert (Hz : Reqb u_th 0 = false) by (apply Reqb_false; lra).
  assert (Hl : Rltb 0 (6 / 10 * u_th) = true) by (apply Rltb_true; lra).
  assert (Hbranch : forall n : nat,
             generateGaussianFluxDist n 0%R u_th e
             = low_drift_loop n (u_th / sqrt (1 - 0 / u_th))%R
                 ((0 / u_th) / (2 * u_th * u_th))%R u_th e).
  { intros n. unfold generateGaussianFluxDist. simpl.
    rewrite Hz, Hl. reflexivity. }
  rewrite Hbranch. cbn [low_drift_loop]. unfold bind at 1.
  assert (Hround : low_drift_round 0 u_th e
                   = ((u_approx 0 u_th
                       * sqrt (-2 * ln (1 - fst (Random e))),
                       fst (Random (snd (Random e))))%R,
                      snd (Random (snd (Random e))))).
  { unfold low_drift_round.
    destruct (Random e) as [d e1]. simpl.
    destruct (Random e1) as [a e2]. reflexivity. }
  rewrite (@low_drift_body_round E G 0%R u_th e _ _ _ Hround).
  cbn [obind fst snd].
  assert (Hacc : low_drift_acceptance 0 u_th
                   (u_approx 0 u_th * sqrt (-2 * ln (1 - fst (Random e))))
                 = 1%R).
  { unfold low_drift_acceptance, prefactor.
    match goal with
    | |- exp ?p = _ => replace p with 0%R by (field; lra)
    end.
    apply exp_0. }
  rewrite Hacc.
  replace (Rltb (fst (Random (snd (Random e)))) 1) with true
    by (symmetry; apply Rltb_true; apply (Hunif (snd (Random e)))).
  unfold ret. f_equal. f_equal.
  unfold u_approx.
  replace (1 - 0 / u_th)%R with 1%R by (field; lra).
  rewrite sqrt_1. field.
Qed.

Lemma generateGaussianFluxDist_no_drift_witness :
  (forall e : nat,
      (0 <= fst (Random (RandomEngine := steady_engine) e) < 1)%R) /\
  (0 < 3)%R /\
  generateGaussianFluxDist (G := steady_engine) 1 0%R 3%R 0%nat
  = Done ((3 * sqrt (-2 * ln (1 - 1 / 2)))%R, 2%nat).
Proof.
  assert (Hunif : forall e : nat,
             (0 <= fst (Random (RandomEngine := steady_engine) e) < 1)%R)
    by (intros e; simpl; lra).
  assert (H3 : (0 < 3)%R) by lra.
  split; [exact Hunif | split; [exact H3 |]].
  exact (generateGaussianFluxDist_no_drift nat steady_engine Hunif
           0%nat 3%R 0%nat H3).
Defined.

(** ** A flux axis outside 0..2 *)

(** X9. In every arithmetic in which [0 == 0] holds, a flux sampler whose
    flux axis is none of 0, 1 and 2 is accepted by the constructor whatever
    its central momenta, and its [getMomentum] is the one of the Gaussian
    sampler with the same central values and spreads: the kernel is called
    with [u_m = u_th = 0], returns without a draw, and its value is used
    for no component. *)
Theorem GaussianFlux_axis_out_of_range :
  forall (T E : Type) (A : AmrexReal T) (G : RandomEngine T E)
         (a b c ta tb tc : T) (axis dirn : Z) (fuel : nat)
         (px py pz : T) (e : E),
    (r0 =? r0)%rt = true ->
    (axis < 0 \/ 2 < axis)%Z ->
    let s := InjectorMomentumGaussianFlux.Build a b c ta tb tc axis dirn in
    InjectorMomentumGaussianFlux.make a b c ta tb tc axis dirn = Done s /\
    InjectorMomentumGaussianFlux.getMomentum fuel s px py pz e
    = InjectorMomentumGaussian.getMomentum
        (InjectorMomentumGaussian.make a b c ta tb tc) px py pz e.
Proof.
  intros T E A G a b c ta tb tc axis dirn fuel px py pz e Hzero Hax s.
  assert (H0 : (axis =? 0)%Z = false) by (apply Z.eqb_neq; lia).
  assert (H1 : (axis =? 1)%Z = false) by (apply Z.eqb_neq; lia).
  assert (H2 : (axis =? 2)%Z = false) by (apply Z.eqb_neq; lia).
  split.
  - unfold InjectorMomentumGaussianFlux.make,
      InjectorMomentumGaussianFlux.raise_error. simpl.
    rewrite H0, H1, H2. reflexivity.
  - unfold InjectorMomentumGaussianFlux.getMomentum,
      InjectorMomentumGaussianFlux.flux_axis_parameters. subst s. simpl.
    rewrite H0, H1, H2. unfold bind at 1.
    rewrite (@generateGaussianFluxDist_trivial_case T E A G fuel r0 r0 e
               Hzero).
    reflexivity.
Qed.

Lemma GaussianFlux_axis_out_of_range_witness :
  (r0 =? r0)%rt = true /\ (3 < 0 \/ 2 < 3)%Z /\
  InjectorMomentumGaussianFlux.getMomentum (G := steady_engine) 0
    (InjectorMomentumGaussianFlux.Build (-1)%R 0%R 0%R 1%R 1%R 1%R 3 1)
    0%R 0%R 0%R 0%nat
  = InjectorMomentumGaussian.getMomentum (G := steady_engine)
      (InjectorMomentumGaussian.make (-1)%R 0%R 0%R 1%R 1%R 1%R)
      0%R 0%R 0%R 0%nat.
Proof.
  assert (Hz : (r0 =? r0)%rt = true) by (apply Reqb_true; reflexivity).
  assert (Hax : (3 < 0 \/ 2 < 3)%Z) by lia.
  split; [exact Hz | split; [exact Hax |]].
  destruct (GaussianFlux_axis_out_of_range R nat R_real steady_engine
              (-1)%R 0%R 0%R 1%R 1%R 1%R 3%Z 1%Z 0%nat 0%R 0%R 0%R 0%nat
              Hz Hax) as [_ Hs].
  exact Hs.
Defined.

(** ** The components across the boost axis *)

Lemma component_of_arr3 {T : Type} (u : arr3 T) (j : Z) :
  (0 <= j < 3)%Z -> component (XDim3_of_arr3 u) j = get3 u j.
Proof.
  intros Hj. destruct u as [[a b] c].
  assert (j = 0 \/ j = 1 \/ j = 2)%Z as [-> | [-> | ->]] by lia; reflexivity.
Qed.

Lemma transform_keeps_transverse {T : Type} {A : AmrexReal T}
      (beta g xi : T) (dir j : Z) (u : arr3 T) :
  (0 <= dir < 3)%Z -> (0 <= j < 3)%Z -> j <> dir ->
  get3 (lorentz_boost beta g dir (flip beta g xi dir u)) j = get3 u j.
Proof.
  intros Hdir Hj Hne. unfold lorentz_boost, flip.
  rewrite get3_set3_other by (try assumption; congruence).
  destruct (rlt _ _); [| reflexivity].
  apply get3_set3_other; try assumption; congruence.
Qed.

(** X10. In every arithmetic, with the boost axis 0, 1 or 2: whenever
    [getMomentum] of the Boltzmann or of the Juttner sampler returns a
    momentum, its two components across the boost axis are those of the
    sample drawn in the local frame; the flip and the boost change the
    component along the boost axis only. *)
Theorem relativistic_sample_keeps_transverse :
  forall (T E : Type) (A : AmrexReal T) (G : RandomEngine T E)
         (px py pz : T) (e e' : E) (v : XDim3 T),
    (forall s : InjectorMomentumBoltzmann.t T,
        let dir := direction (InjectorMomentumBoltzmann.velocity s) in
        let theta := InjectorMomentumBoltzmann.temperature s px py pz in
        (0 <= dir < 3)%Z ->
        InjectorMomentumBoltzmann.getMomentum s px py pz e = Done (v, e') ->
        exists u e1,
          InjectorMomentumBoltzmann.local_sample (rsqrt theta) dir e
          = Done (u, e1) /\
          forall j : Z,
            (0 <= j < 3)%Z -> j <> dir -> component v j = get3 u j) /\
    (forall (fuel : nat) (s : InjectorMomentumJuttner.t T),
        let dir := direction (InjectorMomentumJuttner.velocity s) in
        let theta := InjectorMomentumJuttner.temperature s px py pz in
        (0 <= dir < 3)%Z ->
        InjectorMomentumJuttner.getMomentum fuel s px py pz e
        = Done (v, e') ->
        exists l e1,
          InjectorMomentumJuttner.local_sample fuel theta dir e
          = Done (l, e1) /\
          forall j : Z,
            (0 <= j < 3)%Z -> j <> dir ->
            component v j = get3 (InjectorMomentumJuttner.u l) j).
Proof.
  intros T E A G px py pz e e' v. split.
  - intros s dir theta Hdir Hrun.
    destruct (Boltzmann_getMomentum_aborts_iff s px py pz e) as [Ha _].
    rewrite Hrun in Ha. simpl in Ha.
    destruct (rlt (InjectorMomentumBoltzmann.temperature s px py pz) r0)
      eqn:Ht; [destruct Ha as [_ Ha]; discriminate Ha; auto |].
    destruct (beta_out_of_range
                (velocity_at (InjectorMomentumBoltzmann.velocity s) px py pz))
      eqn:Hb; [destruct Ha as [_ Ha]; discriminate Ha; auto |].
    destruct (Boltzmann_getMomentum_checked s px py pz e Ht Hb)
      as (u & e1 & Hl & Hr).
    exists u, e1. split; [exact Hl |].
    intros j Hj Hne. rewrite Hr in Hrun. inversion Hrun; subst.
    rewrite component_of_arr3 by exact Hj.
    apply transform_keeps_transverse; assumption.
  - intros fuel s dir theta Hdir Hrun.
    destruct (Juttner_getMomentum_aborts_iff fuel s px py pz e) as [Ha _].
    rewrite Hrun in Ha. simpl in Ha.
    destruct (rlt (InjectorMomentumJuttner.temperature s px py pz) r0_1)
      eqn:Ht; [destruct Ha as [_ Ha]; discriminate Ha; auto |].
    destruct (beta_out_of_range
                (velocity_at (InjectorMomentumJuttner.velocity s) px py pz))
      eqn:Hb; [destruct Ha as [_ Ha]; discriminate Ha; auto |].
    rewrite (Juttner_getMomentum_checked fuel s px py pz e Ht Hb) in Hrun.
    fold theta dir in Hrun.
    destruct (InjectorMomentumJuttner.local_sample fuel theta dir e)
      as [[l e1] | | |]; simpl in Hrun; try discriminate.
    exists l, e1. split; [reflexivity |].
    intros j Hj Hne. inversion Hrun; subst.
    rewrite component_of_arr3 by exact Hj.
    apply transform_keeps_transverse; assumption.
Qed.

Lemma relativistic_sample_keeps_transverse_witness :
  (0 <= direction (InjectorMomentumBoltzmann.velocity resting_boltzmann) < 3)%Z
  /\ exists (v : XDim3 R) (e' : nat),
      InjectorMomentumBoltzmann.getMomentum (G := steady_engine)
        resting_boltzmann 0%R 0%R 0%R 0%nat = Done (v, e') /\
      exists u e1,
        InjectorMomentumBoltzmann.local_sample (G := steady_engine)
          (sqrt 1) 0 0%nat = Done (u, e1) /\
        forall j : Z,
          (0 <= j < 3)%Z -> j <> 0%Z -> component v j = get3 u j.
Proof.
  assert (Hdir : (0 <= direction
                         (InjectorMomentumBoltzmann.velocity
                            resting_boltzmann) < 3)%Z) by (simpl; lia).
  split; [exact Hdir |].
  destruct (@Boltzmann_getMomentum_checked R nat R_real steady_engine
              resting_boltzmann 0%R 0%R 0%R 0%nat)
    as (u0 & e0 & _ & Hrun).
  - apply Rltb_false. simpl. lra.
  - unfold beta_out_of_range. simpl. apply orb_false_iff.
    split; apply Rleb_false; lra.
  - eexists _, _. split; [exact Hrun |].
    exact (proj1 (relativistic_sample_keeps_transverse
                    R nat R_real steady_engine 0%R 0%R 0%R 0%nat _ _)
                 resting_boltzmann Hdir Hrun).
Defined.

(** ** The flip and the boost over the real numbers *)

Section FlipAndBoost.
Local Open Scope R_scope.

(** X11. Over the real numbers, with [gamma > 0], a uniform draw that is
    not negative and the boost axis 0, 1 or 2: the flip leaves the vector
    as it is whenever [beta*u[dir] >= 0], and when it does change the
    vector it negates [u[dir]], which then satisfies [beta*u[dir] > 0].
    The flip only ever turns the momentum towards the drift. *)
Theorem flip_turns_towards_drift :
  forall (beta g xi : R) (dir : Z) (u : arr3 R),
    0 < g -> 0 <= xi -> (0 <= dir < 3)%Z ->
    (0 <= beta * get3 u dir -> flip beta g xi dir u = u) /\
    (flip beta g xi dir u <> u ->
     get3 (flip beta g xi dir u) dir = - get3 u dir /\
     0 < beta * get3 (flip beta g xi dir u) dir).
Proof.
  intros beta g xi dir u Hg Hxi Hdir.
  unfold flip. simpl.
  destruct (Rltb xi (- beta * get3 u dir / g)) eqn:Hcmp.
  - apply Rltb_true in Hcmp.
    assert (Hneg : beta * get3 u dir < 0).
    { assert (0 < - beta * get3 u dir / g) by lra.
      assert (Hm : 0 < - beta * get3 u dir / g * g)
        by (apply Rmult_lt_0_compat; assumption).
      unfold Rdiv in Hm. rewrite Rmult_assoc, Rinv_l in Hm by lra. lra. }
    split.
    + intros Hpos. lra.
    + intros _. rewrite get3_set3_same by exact Hdir. split; lra.
  - split; [reflexivity | intros Hne; exfalso; apply Hne; reflexivity].
Qed.

Lemma flip_turns_towards_drift_witness :
  0 < 2 /\ 0 <= 1 / 2 /\ (0 <= 0 < 3)%Z /\ 0 <= 1 * get3 (1, 0, 0) 0 /\
  flip 1 2 (1 / 2) 0 (1, 0, 0) = (1, 0, 0).
Proof.
  assert (H1 : 0 < 2) by lra.
  assert (H2 : 0 <= 1 / 2) by lra.
  assert (H3 : (0 <= 0 < 3)%Z) by lia.
  assert (H4 : 0 <= 1 * get3 (1, 0, 0) 0) by (simpl; lra).
  split; [exact H1 | split; [exact H2 | split; [exact H3 |]]].
  split; [exact H4 |].
  destruct (flip_turns_towards_drift 1 2 (1 / 2) 0%Z (1, 0, 0) H1 H2 H3)
    as [Hkeep _].
  exact (Hkeep H4).
Defined.
End FlipAndBoost.

(** ** The Lorentz factor of a boosted sample *)

Section BoostedEnergy.
Local Open Scope R_scope.

Lemma gamma_of_squared_norm (u : arr3 R) :
  InjectorMomentumBoltzmann.gamma_of u = sqrt (1 + squared_norm u).
Proof.
  unfold InjectorMomentumBoltzmann.gamma_of, squared_norm. simpl.
  f_equal. ring.
Qed.

Lemma squared_norm_set3 (u : arr3 R) (dir : Z) (w : R) :
  (0 <= dir < 3)%Z ->
  squared_norm (set3 u dir w)
  = squared_norm u - get3 u dir * get3 u dir + w * w.
Proof.
  intros Hdir. destruct u as [[a b] c]. unfold squared_norm.
  assert (dir = 0 \/ dir = 1 \/ dir = 2)%Z as [-> | [-> | ->]] by lia;
    simpl; ring.
Qed.

Lemma squared_norm_nonneg_rest (u : arr3 R) (dir : Z) :
  (0 <= dir < 3)%Z -> 0 <= squared_norm u - get3 u dir * get3 u dir.
Proof.
  intros Hdir. destruct u as [[a b] c]. unfold squared_norm.
  assert (dir = 0 \/ dir = 1 \/ dir = 2)%Z as [-> | [-> | ->]] by lia;
    simpl; nra.
Qed.

Lemma squared_norm_flip (beta g xi : R) (dir : Z) (u : arr3 R) :
  (0 <= dir < 3)%Z ->
  squared_norm (flip beta g xi dir u) = squared_norm u.
Proof.
  intros Hdir. unfold flip.
  destruct (rlt _ _); [| reflexivity].
  rewrite squared_norm_set3 by exact Hdir.
  change (rneg (get3 u dir)) with (- get3 u dir). ring.
Qed.

(** The energy of a boosted momentum: with [g = sqrt(1 + a^2 + q)] and
    [a' = (a + g*beta)/sqrt(1-beta^2)], [sqrt(1 + a'^2 + q)] is
    [(g + beta*a)/sqrt(1-beta^2)]. *)
Lemma boosted_energy (a q beta : R) :
  -1 < beta < 1 -> 0 <= q ->
  let g := sqrt (1 + a * a + q) in
  let a' := 1 / sqrt (1 - beta * beta) * (a + g * beta) in
  sqrt (1 + a' * a' + q) = (g + beta * a) / sqrt (1 - beta * beta).
Proof.
  intros Hbeta Hq g a'.
  assert (Hpos : 0 < 1 - beta * beta) by nra.
  pose proof (sqrt_lt_R0 _ Hpos) as HG.
  pose proof (sqrt_sqrt (1 - beta * beta) (Rlt_le _ _ Hpos)) as HGG.
  set (G := sqrt (1 - beta * beta)) in *.
  assert (Hin : 0 <= 1 + a * a + q) by nra.
  pose proof (sqrt_sqrt _ Hin) as Hgg. fold g in Hgg.
  assert (Hg : 0 < g) by (apply sqrt_lt_R0; nra).
  assert (Hsum : 0 <= g + beta * a).
  { assert (Habs : a * a < g * g) by nra.
    assert (Hba : (beta * a) * (beta * a) <= a * a) by nra.
    nra. }
  assert (Hi : / G * G = 1) by (apply Rinv_l; lra).
  set (i := / G) in *.
  assert (Hii : i * i * (1 - beta * beta) = 1).
  { rewrite <- HGG. replace (i * i * (G * G)) with ((i * G) * (i * G)) by ring.
    rewrite Hi. ring. }
  assert (Heq : 1 + a' * a' + q
                = ((g + beta * a) / G) * ((g + beta * a) / G)).
  { subst a'. unfold Rdiv. fold i.
    replace (1 + 1 * i * (a + g * beta) * (1 * i * (a + g * beta)) + q)
      with (1 + q + (a * a - g * g) * (i * i * (1 - beta * beta))
            + (g + beta * a) * i * ((g + beta * a) * i)) by ring.
    rewrite Hii. lra. }
  rewrite Heq. apply sqrt_square.
  unfold Rdiv. fold i.
  apply Rmult_le_pos; [exact Hsum |].
  subst i. apply Rlt_le. apply Rinv_0_lt_compat. exact HG.
Qed.

(** X12. Over the real numbers, with [|beta| < 1] and the boost axis 0, 1
    or 2.  Let [g = sqrt(1+|u|^2)] be the Lorentz factor the Boltzmann
    sampler computes for its local sample [u].  The flip keeps it, and
    after the boost the momentum has the Lorentz factor
    [(g + beta*u[dir])/sqrt(1-beta^2)], [u[dir]] being the component the
    flip left: the boost of the boost-axis component alone is the Lorentz
    transform of the whole four-momentum. *)
Theorem boost_preserves_mass_shell :
  forall (beta xi : R) (dir : Z) (u : arr3 R),
    -1 < beta < 1 -> (0 <= dir < 3)%Z ->
    let g := InjectorMomentumBoltzmann.gamma_of u in
    let u1 := flip beta g xi dir u in
    let v := lorentz_boost beta g dir u1 in
    InjectorMomentumBoltzmann.gamma_of u1 = g /\
    InjectorMomentumBoltzmann.gamma_of v
    = (g + beta * get3 u1 dir) / sqrt (1 - beta * beta).
Proof.
  intros beta xi dir u Hbeta Hdir g u1 v.
  assert (Hflip : InjectorMomentumBoltzmann.gamma_of u1 = g).
  { subst u1 g. rewrite 2 gamma_of_squared_norm.
    rewrite squared_norm_flip by exact Hdir. reflexivity. }
  split; [exact Hflip |].
  subst v. unfold lorentz_boost. rewrite gamma_of_squared_norm.
  rewrite squared_norm_set3 by exact Hdir. simpl.
  set (a := get3 u1 dir).
  set (q := squared_norm u1 - a * a).
  assert (Hq : 0 <= q) by (apply squared_norm_nonneg_rest; exact Hdir).
  assert (Hg : g = sqrt (1 + a * a + q)).
  { rewrite <- Hflip. rewrite gamma_of_squared_norm. f_equal.
    subst q. ring. }
  pose proof (boosted_energy a q beta Hbeta Hq) as Hb. cbv zeta in Hb.
  rewrite <- Hg in Hb. rewrite <- Hb. f_equal. ring.
Qed.

Lemma boost_preserves_mass_shell_witness :
  -1 < 1 / 2 < 1 /\ (0 <= 1 < 3)%Z /\
  InjectorMomentumBoltzmann.gamma_of
    (lorentz_boost (1 / 2) (InjectorMomentumBoltzmann.gamma_of (1, 2, 3)) 1
       (flip (1 / 2) (InjectorMomentumBoltzmann.gamma_of (1, 2, 3)) 0 1
             (1, 2, 3)))
  = (InjectorMomentumBoltzmann.gamma_of (1, 2, 3)
     + 1 / 2 * get3 (flip (1 / 2)
                          (InjectorMomentumBoltzmann.gamma_of (1, 2, 3)) 0 1
                          (1, 2, 3)) 1)
    / sqrt (1 - 1 / 2 * (1 / 2)).
Proof.
  assert (H1 : -1 < 1 / 2 < 1) by lra.
  assert (H2 : (0 <= 1 < 3)%Z) by lia.
  split; [exact H1 | split; [exact H2 |]].
  destruct (boost_preserves_mass_shell (1 / 2) 0 1%Z (1, 2, 3) H1 H2)
    as [_ Hb].
  exact Hb.
Defined.
End BoostedEnergy.

(** ** The local sample of the Juttner sampler *)

Section JuttnerShape.
Context {E : Type} {G : RandomEngine R E}.
Local Open Scope R_scope.

Lemma squared_norm_by_axis (v : arr3 R) (dir : Z) :
  (0 <= dir < 3)%Z ->
  squared_norm v
  = get3 v dir * get3 v dir
    + get3 v (Z.rem (dir + 1) 3) * get3 v (Z.rem (dir + 1) 3)
    + get3 v (Z.rem (dir + 2) 3) * get3 v (Z.rem (dir + 2) 3).
Proof.
  intros Hdir. destruct v as [[a b] c]. unfold squared_norm.
  assert (dir = 0 \/ dir = 1 \/ dir = 2)%Z as [-> | [-> | ->]] by lia;
    simpl; ring.
Qed.

(** A point of the sphere of radius [s]. *)
Lemma on_sphere (s x1 x2 : R) :
  0 <= x1 <= 1 ->
  s * (2 * x1 - 1) * (s * (2 * x1 - 1))
  + 2 * s * sqrt (x1 * (1 - x1)) * sin (2 * PI * x2)
    * (2 * s * sqrt (x1 * (1 - x1)) * sin (2 * PI * x2))
  + 2 * s * sqrt (x1 * (1 - x1)) * cos (2 * PI * x2)
    * (2 * s * sqrt (x1 * (1 - x1)) * cos (2 * PI * x2))
  = s * s.
Proof.
  intros Hx.
  assert (Hr : sqrt (x1 * (1 - x1)) * sqrt (x1 * (1 - x1)) = x1 * (1 - x1))
    by (apply sqrt_sqrt; nra).
  pose proof (sin2_cos2 (2 * PI * x2)) as Hsc. unfold Rsqr in Hsc.
  set (r := sqrt (x1 * (1 - x1))) in *.
  set (sn := sin (2 * PI * x2)) in *.
  set (cs := cos (2 * PI * x2)) in *.
  replace (s * (2 * x1 - 1) * (s * (2 * x1 - 1))
           + 2 * s * r * sn * (2 * s * r * sn)
           + 2 * s * r * cs * (2 * s * r * cs))
    with (s * s * ((2 * x1 - 1) * (2 * x1 - 1)
                   + 4 * (r * r) * (sn * sn + cs * cs))) by ring.
  rewrite Hr, Hsc. ring.
Qed.

Lemma sobol_draw_shape (theta : R) :
  (forall e : E, 0 < fst (Random e) < 1) ->
  0 <= theta ->
  forall (e e' : E) (u_axis g t : R),
    sobol_draw theta e (u_axis, g, t) e' ->
    0 <= u_axis /\ g = sqrt (1 + u_axis * u_axis).
Proof.
  intros Hunif Htheta e e' u_axis g t Hdraw.
  remember (u_axis, g, t) as r eqn:Hr. revert u_axis g t Hr.
  induction Hdraw as [e e' ua ga ta Hround Hcmp
                     | e e1 e' ua ga ta r Hround Hcmp Hdraw IH];
    intros u_axis g t Hr; [| exact (IH u_axis g t Hr)].
  inversion Hr; subst; clear Hr.
  unfold sobol_round in Hround.
  pose proof (Hunif e) as H1.
  destruct (Random e) as [xi1 e1]. simpl in H1.
  pose proof (Hunif e1) as H2.
  destruct (Random e1) as [xi2 e2]. simpl in H2.
  pose proof (Hunif e2) as H3.
  destruct (Random e2) as [xi3 e3]. simpl in H3.
  destruct (Random e3) as [xi4 e4].
  inversion Hround; subst; clear Hround.
  split; [| reflexivity].
  assert (Hp12 : 0 < xi1 * xi2 < 1) by nra.
  assert (Hp : 0 < xi1 * xi2 * xi3 < 1) by nra.
  assert (Hln : ln (xi1 * xi2 * xi3) < 0).
  { rewrite <- ln_1. apply ln_increasing; lra. }
  nra.
Qed.

(** X13. Over the real numbers, with an engine whose uniform draws lie in
    (0,1), a temperature that is not negative and the boost axis 0, 1 or
    2: whatever the local-frame stage of the Juttner sampler returns is a
    vector of length [u_axis], the speed the rejection loop accepted, which
    is not negative; and the [gamma] it hands to the flip and to the boost
    is the Lorentz factor [sqrt(1+|u|^2)] of that vector, as the Boltzmann
    sampler computes it. *)
Theorem Juttner_local_sample_on_mass_shell :
  (forall e : E, 0 < fst (Random e) < 1) ->
  forall (fuel : nat) (theta : R) (dir : Z) (e e' : E)
         (l : InjectorMomentumJuttner.locals R),
    0 <= theta -> (0 <= dir < 3)%Z ->
    InjectorMomentumJuttner.local_sample fuel theta dir e = Done (l, e') ->
    exists u_axis : R,
      0 <= u_axis /\
      squared_norm (InjectorMomentumJuttner.u l) = u_axis * u_axis /\
      InjectorMomentumJuttner.gamma l = sqrt (1 + u_axis * u_axis) /\
      InjectorMomentumJuttner.gamma l
      = InjectorMomentumBoltzmann.gamma_of (InjectorMomentumJuttner.u l).
Proof.
  intros Hunif fuel theta dir e e' l Htheta Hdir Hrun.
  destruct (@local_sample_sound E G theta dir fuel e e' l Hdir Hrun)
    as (u_axis & g & t & e1 & Hdraw & Hplace).
  destruct (sobol_draw_shape theta Hunif Htheta e e1 u_axis g t Hdraw)
    as [Hu Hg].
  unfold on_random_direction in Hplace.
  pose proof (Hunif e1) as Hx1.
  destruct (Random e1) as [x1 e2]. simpl in Hx1.
  destruct (Random e2) as [x2 e3].
  destruct Hplace as (_ & Hgl & H1 & H2 & H0).
  assert (Hnorm : squared_norm (InjectorMomentumJuttner.u l)
                  = u_axis * u_axis).
  { rewrite (squared_norm_by_axis _ dir Hdir). rewrite H0, H1, H2.
    apply on_sphere. lra. }
  exists u_axis.
  split; [exact Hu |]. split; [exact Hnorm |].
  split; [rewrite Hgl; exact Hg |].
  rewrite gamma_of_squared_norm, Hnorm, Hgl. exact Hg.
Qed.
End JuttnerShape.

Lemma Juttner_local_sample_on_mass_shell_witness :
  (forall e : nat,
      (0 < fst (Random (RandomEngine := quarter_engine) e) < 1)%R) /\
  (0 <= 1)%R /\ (0 <= 0 < 3)%Z /\
  exists (fuel : nat) (l : InjectorMomentumJuttner.locals R) (e' : nat),
    InjectorMomentumJuttner.local_sample (G := quarter_engine)
      fuel 1%R 0 0%nat = Done (l, e') /\
    exists u_axis : R,
      (0 <= u_axis)%R /\
      squared_norm (InjectorMomentumJuttner.u l) = (u_axis * u_axis)%R /\
      InjectorMomentumJuttner.gamma l = sqrt (1 + u_axis * u_axis) /\
      InjectorMomentumJuttner.gamma l
      = InjectorMomentumBoltzmann.gamma_of (InjectorMomentumJuttner.u l).
Proof.
  assert (Hunif : forall e : nat,
             (0 < fst (Random (RandomEngine := quarter_engine) e) < 1)%R)
    by (intros e; simpl; lra).
  assert (Ht : (0 <= 1)%R) by lra.
  assert (Hdir : (0 <= 0 < 3)%Z) by lia.
  split; [exact Hunif | split; [exact Ht | split; [exact Hdir |]]].
  destruct (@local_sample_complete nat quarter_engine 1%R 0%Z 0%nat 4%nat
              _ _ _ Hdir quarter_round_accepted) as [n Hn].
  destruct (Hn n (le_n n)) as (l & e' & Hrun & _).
  exists n, l, e'. split; [exact Hrun |].
  exact (@Juttner_local_sample_on_mass_shell nat quarter_engine Hunif
           n 1%R 0%Z 0%nat e' l Ht Hdir Hrun).
Defined.

(** ** The fatal reports of a sample *)

Lemma reports_obind_quiet {B C : Type} (o : outcome B) (k : B -> outcome C) :
  aborts o = false ->
  (forall b, reports (k b) = []) ->
  reports (obind o k) = [].
Proof. destruct o; simpl; intros Ho Hk; auto; discriminate. Qed.

(** X14. In every arithmetic.  The first fatal report of [getMomentum] of
    the Boltzmann sampler is the report on the temperature when
    [theta < 0]; otherwise it is the report on the velocity when [beta] is
    outside (-1,1); otherwise there is no report at all.  So a point where
    both checks fail is reported as a temperature error.  The same holds
    for the Juttner sampler with its own report on the temperature, for
    [theta < 0.1]. *)
Theorem getMomentum_first_report :
  forall (T E : Type) (A : AmrexReal T) (G : RandomEngine T E)
         (px py pz : T) (e : E),
    (forall s : InjectorMomentumBoltzmann.t T,
        let theta := InjectorMomentumBoltzmann.temperature s px py pz in
        let beta :=
          velocity_at (InjectorMomentumBoltzmann.velocity s) px py pz in
        let o := InjectorMomentumBoltzmann.getMomentum s px py pz e in
        hd_error (reports o)
        = (if (theta <? r0)%rt
           then Some "Negative temperature parameter theta encountered, which is not allowed"
           else if beta_out_of_range beta
                then Some "beta = v/c magnitude greater than or equal to 1"
                else None)) /\
    (forall (fuel : nat) (s : InjectorMomentumJuttner.t T),
        let theta := InjectorMomentumJuttner.temperature s px py pz in
        let beta :=
          velocity_at (InjectorMomentumJuttner.velocity s) px py pz in
        let o := InjectorMomentumJuttner.getMomentum fuel s px py pz e in
        hd_error (reports o)
        = (if (theta <? r0_1)%rt
           then Some "Temeprature parameter theta is less than minimum 0.1 allowed for Maxwell-Juttner"
           else if beta_out_of_range beta
                then Some "beta = v/c magnitude greater than or equal to 1"
                else None)).
Proof.
  intros T E A G px py pz e. split.
  - intros s theta beta o. subst o.
    unfold InjectorMomentumBoltzmann.getMomentum. fold theta beta.
    unfold beta_out_of_range.
    destruct (theta <? r0)%rt;
      destruct ((beta <=? - r1)%rt || (beta >=? r1)%rt);
      unfold when, bind, Abort, ret,
        InjectorMomentumBoltzmann.local_sample, bind, lift, ret; simpl;
      reflexivity.
  - intros fuel s theta beta o. subst o.
    destruct (theta <? r0_1)%rt eqn:Ht.
    + unfold InjectorMomentumJuttner.getMomentum.
      fold theta. rewrite Ht. unfold when, bind, Abort. simpl. reflexivity.
    + destruct (beta_out_of_range beta) eqn:Hb.
      * unfold InjectorMomentumJuttner.getMomentum.
        fold theta beta. unfold beta_out_of_range in Hb. rewrite Ht, Hb.
        unfold when, bind, Abort, ret. simpl. reflexivity.
      * rewrite (Juttner_getMomentum_checked fuel s px py pz e Ht Hb).
        rewrite reports_obind_quiet; [reflexivity | |].
        -- apply Juttner_local_sample_no_abort.
        -- intros b. reflexivity.
Qed.
